(** * League-Analyzer: the ladder synchronisation of [utility.py]

    A shallow embedding of [src/utility.py]: the three URL builders, the
    per-player lookup with its retry on HTTP 429, the bulk insert and the
    orchestrator [create_summoner_to_id_table], followed by the properties
    the specification states about them; then the key reader, the entry
    point [main] of [src/main.py], and further properties read off the
    code.

    Conventions of the embedding.
    - A Python [str] is a [string] whose characters are read as code points
      below 256; [lower] is [str.lower] on that range.
    - A [dict] is a [gmap], the [set] of tier names a [gset].
    - An exception is a value of [exn]; [exit()] raises [SystemExit].
    - The network, the SQLite engine and what the program uses of the
      interpreter ([int] on a header value, [str] of a decoded JSON value
      that is not a string, the longest duration [time.sleep] accepts)
      form the [World] the program runs in; every theorem holds for every
      world.
    - [get_id_summoner] calls itself; the number of nested calls the
      interpreter's recursion limit leaves room for is a parameter of the
      run, and the call that finds no room raises [RecursionError].
    - Console output ([print]) is not part of the model. *)

From stdpp Require Import gmap strings list fin_maps.
From Stdlib Require Import Ascii String ZArith Lia.

Local Open Scope string_scope.
Local Open Scope list_scope.

(** ** Exceptions and results *)

Inductive exn : Type :=
| ValueError (msg : string)
| KeyError (key : string)
| IndexError
| TypeError
| JSONDecodeError
| RequestException
| Sqlite3Error (msg : string)
| OverflowError
| RecursionError
| SystemExit.

(** The error kinds of the specification, as the code raises them. *)
Definition InvalidRegion : exn := ValueError "The region is invalid".
Definition InvalidDivision : exn := ValueError "Division is invalid".
Definition InvalidTier : exn := ValueError "Tier is invalid".
Definition TierDivisionConflict (tier : string) : exn :=
  ValueError ("You cannot have tier " +:+ tier +:+ " with a division").
Definition MalformedResponse (field : string) : exn := KeyError field.

Inductive result (A : Type) : Type :=
| Ok (a : A)
| Err (e : exn).
Arguments Ok {A} a.
Arguments Err {A} e.

(** ** Strings *)

(** [str.lower] on code points below 256: [A-Z] and the Latin-1 capitals
    U+00C0..U+00DE (the multiplication sign U+00D7 apart) move up by 32. *)
Definition lower_char (c : ascii) : ascii :=
  let n := nat_of_ascii c in
  if ((65 <=? n) && (n <=? 90)
      || ((192 <=? n) && (n <=? 222) && negb (n =? 215)))%nat
  then ascii_of_nat (n + 32)
  else c.

Fixpoint lower (s : string) : string :=
  match s with
  | EmptyString => EmptyString
  | String c s' => String (lower_char c) (lower s')
  end.

(** ** Module constants *)

Definition DB_URL : string := "db/data.db".

Definition region_table : list (string * string) :=
  [ ("NA", "https://na1.api.riotgames.com");
    ("EUW", "https://euw1.api.riotgames.com");
    ("EUN", "https://eun1.api.riotgames.com");
    ("BR", "https://br1.api.riotgames.com");
    ("JP", "https://jp1.api.riotgames.com");
    ("KR", "https://kr.api.riotgames.com");
    ("LA", "https://la1.api.riotgames.com");
    ("OC", "https://oc1.api.riotgames.com");
    ("TR", "https://tr1.api.riotgames.com");
    ("RU", "https://ru.api.riotgames.com");
    ("PH", "https://ph2.api.riotgames.com");
    ("SG", "https://sg2.api.riotgames.com");
    ("TH", "https://th2.api.riotgames.com");
    ("TW", "https://tw2.api.riotgames.com");
    ("VN", "https://vn2.api.riotgames.com") ].

Definition region_dict : gmap string string := list_to_map region_table.

Definition division_dict : gmap string string :=
  list_to_map [ ("1", "I"); ("2", "II"); ("3", "III"); ("4", "IV"); ("", "") ].

(** The keys of the two dictionaries. *)
Definition region_codes : list string := region_table.*1.

Definition division_codes : list string := ["1"; "2"; "3"; "4"; ""].

Definition tier_names : list string :=
  [ "iron"; "bronze"; "silver"; "gold"; "platinum"; "diamond";
    "master"; "grandmaster"; "challenger" ].

Definition tier_set : gset string := list_to_set tier_names.

(** ** URL builders *)

Definition region_to_url (region : string) : result string :=
  match region_dict !! region with
  | Some url => Ok url
  | None => Err (ValueError "The region is invalid")
  end.

(** [tier_to_url(tier, division="", page="1")]; the defaults are written
    out at the call sites. *)
Definition tier_to_url (tier division page : string) : result string :=
  let tier := lower tier in
  let is_top_league :=
    bool_decide (tier = "master") || bool_decide (tier = "grandmaster")
    || bool_decide (tier = "challenger") in
  match division_dict !! division with
  | None => Err (ValueError "Division is invalid")
  | Some division =>
      if negb (bool_decide (tier ∈ tier_set))
      then Err (ValueError "Tier is invalid")
      else if is_top_league && negb (bool_decide (division = ""))
      then Err (ValueError ("You cannot have tier " +:+ tier +:+ " with a division"))
      else if is_top_league
      then Ok ("/lol/league/v4/" +:+ tier +:+ "leagues/by-queue/RANKED_SOLO_5x5")
      else Ok ("/lol/league/v4/entries/RANKED_SOLO_5x5/" +:+ tier +:+ "/"
               +:+ division +:+ "?page=" +:+ page)
  end.

(** [create_tier_url(region="NA", tier="Master")]: a [ValueError] of either
    builder is printed and the process exits. *)
Definition create_tier_url (region tier : string) : result string :=
  match region_to_url region with
  | Err (ValueError _) => Err SystemExit
  | Err e => Err e
  | Ok region_url =>
      match tier_to_url tier "" "1" with
      | Err (ValueError _) => Err SystemExit
      | Err e => Err e
      | Ok tier_url => Ok (region_url +:+ tier_url)
      end
  end.


(** ** Decoded JSON values

    What [response.json()] returns.  Numbers are kept as their literal: the
    program never computes with them. *)
#[warnings="-register-all"]
Inductive json : Type :=
| JNull
| JBool (b : bool)
| JNum (lit : string)
| JStr (s : string)
| JList (l : list json)
| JObj (d : gmap string json).

(** [v[key]] for a string key: only a [dict] can be indexed that way. *)
Definition getitem (v : json) (key : string) : result json :=
  match v with
  | JObj d =>
      match d !! key with
      | Some x => Ok x
      | None => Err (KeyError key)
      end
  | _ => Err TypeError
  end.

(** [iter(v)], what a [for] statement walks through: the items of a list,
    the keys of a dict (in the order of [map_to_list]: the loop of the
    program fails on the first key, whichever it is), the characters of a
    str. *)
Definition py_iter (v : json) : result (list json) :=
  match v with
  | JList l => Ok l
  | JObj d => Ok (map (fun kv => JStr (fst kv)) (map_to_list d))
  | JStr s => Ok (map (fun c => JStr (String c EmptyString)) (list_ascii_of_string s))
  | _ => Err TypeError
  end.

(** ** The world: HTTP, SQLite, the interpreter *)

(** A response of [requests.get].  [headers] is the case-insensitive
    dictionary of the library, keyed by the lower-cased header name;
    [body] is [None] when the body does not decode as JSON. *)
Record response : Type := {
  status_code : Z;
  headers : gmap string string;
  body : option json
}.

Inductive get_outcome : Type :=
| GotResponse (r : response)
| RaisedConnectionError
| RaisedOtherRequestError.

(** A row handed to SQLite is a tuple of values. *)
Definition row : Type := list json.

Inductive db_op : Type :=
| Connect (path : string)
| Execute (statement : string)
| ExecuteMany (statement : string) (data : list row)
| Commit
| Close.

(** What a run does to the outside, in order.  An [EvDb] carries the text
    of the [sqlite3.Error] the operation raised, if it raised one. *)
Inductive event : Type :=
| EvGet (url : string) (hdrs : gmap string string) (out : get_outcome)
| EvSleep (secs : Z)
| EvDb (op : db_op) (err : option string).

(** The environment answers from what has happened so far.  [py_int s] is
    [int(s)] ([None] when it raises [ValueError], whose message is kept
    without the offending literal); [py_str v] is [str(v)] for a decoded
    value that is not a string; [sleep_max] is the longest duration, in
    seconds, that [time.sleep] can convert to the unit of its clock
    (9223372036 where the clock counts nanoseconds on 64 bits). *)
Record World : Type := {
  requests_get : list event -> string -> gmap string string -> get_outcome;
  sqlite3 : list event -> db_op -> option string;
  py_int : string -> option Z;
  py_str : json -> string;
  sleep_max : Z
}.

(** ** Program state and the monad of runs *)

Record state : Type := {
  trace : list event;
  REQUESTS_COUNTER : nat
}.

(** The state a process starts in: [REQUESTS_COUNTER = 0], nothing done. *)
Definition initial_state : state := {| trace := []; REQUESTS_COUNTER := 0 |}.

Inductive outcome (A : Type) : Type :=
| Ret (a : A)
| Raise (e : exn).
Arguments Ret {A} a.
Arguments Raise {A} e.

Definition M (A : Type) : Type := state -> outcome A * state.

Definition ret {A} (a : A) : M A := fun s => (Ret a, s).
Definition raise {A} (e : exn) : M A := fun s => (Raise e, s).

Definition bind {A B} (c : M A) (k : A -> M B) : M B :=
  fun s =>
    match c s with
    | (Ret a, s') => k a s'
    | (Raise e, s') => (Raise e, s')
    end.

Notation "x <~ c ;; k" := (bind c (fun x => k))
  (at level 90, c at next level, right associativity).
Notation "c ;;; k" := (bind c (fun _ => k))
  (at level 90, right associativity).

Definition lift {A} (r : result A) : M A :=
  match r with
  | Ok a => ret a
  | Err e => raise e
  end.

(** [try: c  except ...: h]: [handler e] is the body of the clause that
    catches [e], if one does. *)
Definition catch {A} (c : M A) (handler : exn -> option (M A)) : M A :=
  fun s =>
    match c s with
    | (Raise e, s') =>
        match handler e with
        | Some h => h s'
        | None => (Raise e, s')
        end
    | r => r
    end.

(** [exit()] *)
Definition exit {A} : M A := raise SystemExit.

Definition log (e : event) (s : state) : state :=
  {| trace := trace s ++ [e]; REQUESTS_COUNTER := REQUESTS_COUNTER s |}.

Definition increment_counter : M unit :=
  fun s => (Ret tt, {| trace := trace s; REQUESTS_COUNTER := REQUESTS_COUNTER s + 1 |}).

(** [response.json()] *)
Definition response_json (r : response) : result json :=
  match body r with
  | Some v => Ok v
  | None => Err JSONDecodeError
  end.

(** [response.headers[name]]: the dictionary looks the lower-cased name
    up, and its [KeyError] carries that lower-cased name. *)
Definition header (r : response) (name : string) : result string :=
  match headers r !! lower name with
  | Some v => Ok v
  | None => Err (KeyError (lower name))
  end.

(** ["?, " * n] and [tmp[:-2]] *)
Fixpoint str_repeat (s : string) (n : nat) : string :=
  match n with
  | O => EmptyString
  | S n' => s +:+ str_repeat s n'
  end.

Definition drop_last_two (s : string) : string :=
  substring 0 (String.length s - 2) s.

Definition newline : string := String (ascii_of_nat 10) EmptyString.

Definition create_table_statement : string :=
  "CREATE TABLE IF NOT EXISTS summonerID (
                                    puuid text PRIMARY KEY NOT NULL,
                                    summoner_id text NOT NULL,
                                    account_id text NOT NULL,
                                    summoner_name text NOT NULL,
                                    region text NOT NULL
                                );".

(** ** The program *)

Section Program.

Variable W : World.

(** [requests.get(url, headers=hdrs)] *)
Definition http_get (url : string) (hdrs : gmap string string) : M get_outcome :=
  fun s =>
    let out := requests_get W (trace s) url hdrs in
    (Ret out, log (EvGet url hdrs out) s).

(** One call into [sqlite3]; a failure is raised as [sqlite3.Error]. *)
Definition db (op : db_op) : M unit :=
  fun s =>
    let err := sqlite3 W (trace s) op in
    let s' := log (EvDb op err) s in
    match err with
    | None => (Ret tt, s')
    | Some msg => (Raise (Sqlite3Error msg), s')
    end.

(** [time.sleep(secs)] for an integer duration: it is first converted to
    the unit of the clock, which raises [OverflowError] beyond [sleep_max]
    in either direction; a negative duration is then refused. *)
Definition sleep (secs : Z) : M unit :=
  if (sleep_max W <? Z.abs secs)%Z
  then raise OverflowError
  else if (secs <? 0)%Z
  then raise (ValueError "sleep length must be non-negative")
  else fun s => (Ret tt, log (EvSleep secs) s).

(** [f"{v}"] *)
Definition format (v : json) : string :=
  match v with
  | JStr s => s
  | _ => py_str W v
  end.

(** [create_puuid_url(summonerId, region="NA")] *)
Definition create_puuid_url (summonerId : json) (region : string) : result string :=
  match region_to_url region with
  | Err (ValueError _) => Err SystemExit
  | Err e => Err e
  | Ok region_url =>
      Ok (region_url +:+ ("/lol/summoner/v4/summoners/" +:+ format summonerId))
  end.

(** [create_connection(path_to_db)]; the connection it returns is the
    one the following [db] calls talk to. *)
Definition create_connection (path_to_db : string) : M unit :=
  catch (db (Connect path_to_db))
    (fun e =>
       match e with
       | Sqlite3Error msg =>
           Some (raise (ValueError ("Error connecting to database :" +:+ newline +:+ msg)))
       | _ => None
       end).

(** [create_summonerID_table(connection)]: [except Exception] catches
    everything but [SystemExit]. *)
Definition create_summonerID_table : M string :=
  catch (db (Execute create_table_statement) ;;;
         db Commit ;;;
         db Close ;;;
         ret "summonerID")
    (fun e =>
       match e with
       | SystemExit => None
       | _ => Some exit
       end).

(** [insert_into_table(path_to_db, table_name, data)] *)
Definition insert_into_table (path_to_db table_name : string) (data : list row) : M unit :=
  catch (db (Connect path_to_db))
    (fun e => match e with Sqlite3Error _ => Some exit | _ => None end) ;;;
  first_row <~ lift (match data with
                     | [] => Err IndexError
                     | r :: _ => Ok r
                     end) ;;
  let tmp := str_repeat "?, " (List.length first_row) in
  let value_string := "(" +:+ drop_last_two tmp +:+ ")" in
  catch (db (ExecuteMany ("INSERT INTO " +:+ table_name +:+ " VALUES" +:+ value_string) data))
    (fun e =>
       match e with
       | Sqlite3Error _ => Some (db Close ;;; exit)
       | _ => None
       end) ;;;
  db Commit ;;;
  db Close.

(** [get_id_summoner(summonerId, API_KEY, region="NA")].  The function
    calls itself after each 429, one frame deeper each time.  [room] is
    the number of nested calls the interpreter's recursion limit allows
    from where the first call is made (the limit less the frames in use
    and those [requests.get] needs): the call that finds none left raises
    [RecursionError], which nothing in the program catches. *)
Fixpoint get_id_summoner (room : nat) (summonerId : json) (API_KEY region : string)
  : M (json * json) :=
  match room with
  | O => raise RecursionError
  | S room' =>
      request_url <~ lift (create_puuid_url summonerId region) ;;
      let headers : gmap string string := {[ "X-Riot-Token" := API_KEY ]} in
      got <~ http_get request_url headers ;;
      match got with
      | RaisedConnectionError => exit
      | RaisedOtherRequestError => raise RequestException
      | GotResponse response =>
          if (status_code response =? 429)%Z then
            retry_after <~ lift (header response "Retry-After") ;;
            seconds <~ lift (match py_int W retry_after with
                             | Some n => Ok n
                             | None => Err (ValueError "invalid literal for int() with base 10")
                             end) ;;
            let wait_time := (seconds + 1)%Z in
            sleep wait_time ;;;
            get_id_summoner room' summonerId API_KEY region
          else if negb (status_code response =? 200)%Z then exit
          else
            response_dict <~ lift (response_json response) ;;
            increment_counter ;;;
            puuid <~ lift (getitem response_dict "puuid") ;;
            account_id <~ lift (getitem response_dict "accountId") ;;
            ret (puuid, account_id)
      end
  end.

(** The body of [for account in accounts_data], from the rows gathered so
    far. *)
Fixpoint resolve_accounts (room : nat) (API_KEY region : string)
    (accounts : list json) (formatted_data : list row) : M (list row) :=
  match accounts with
  | [] => ret formatted_data
  | account :: rest =>
      summonerId <~ lift (getitem account "summonerId") ;;
      summonerName <~ lift (getitem account "summonerName") ;;
      ids <~ get_id_summoner room summonerId API_KEY region ;;
      let '(puuid, account_id) := ids in
      resolve_accounts room API_KEY region rest
        (formatted_data ++ [[puuid; summonerId; account_id; summonerName; JStr region]])
  end.

(** [create_summoner_to_id_table(API_KEY, PATH_DB, region="NA", tier="Master")] *)
Definition create_summoner_to_id_table (room : nat)
    (API_KEY PATH_DB region tier : string) : M unit :=
  request_url <~ lift (create_tier_url region tier) ;;
  let headers : gmap string string := {[ "X-Riot-Token" := API_KEY ]} in
  got <~ http_get request_url headers ;;
  match got with
  | RaisedConnectionError => exit
  | RaisedOtherRequestError => raise RequestException
  | GotResponse response =>
      if negb (status_code response =? 200)%Z then exit
      else
        response_dict <~ lift (response_json response) ;;
        accounts_data <~ lift (getitem response_dict "entries") ;;
        catch (create_connection PATH_DB)
          (fun e => match e with ValueError _ => Some exit | _ => None end) ;;;
        table_name <~ create_summonerID_table ;;
        accounts <~ lift (py_iter accounts_data) ;;
        formatted_data <~ resolve_accounts room API_KEY region accounts [] ;;
        insert_into_table PATH_DB table_name formatted_data
  end.

End Program.

(** ** Reading a trace *)

(** The HTTP exchanges of a trace, in order: URL, headers sent, outcome. *)
Definition get_of (e : event) : option (string * gmap string string * get_outcome) :=
  match e with
  | EvGet url hdrs out => Some (url, hdrs, out)
  | _ => None
  end.

Definition gets (t : list event) : list (string * gmap string string * get_outcome) :=
  omap get_of t.

(** The durations slept, in order. *)
Definition sleep_of (e : event) : option Z :=
  match e with
  | EvSleep secs => Some secs
  | _ => None
  end.

Definition sleeps (t : list event) : list Z := omap sleep_of t.

(** The database operations attempted, in order. *)
Definition db_op_of (e : event) : option db_op :=
  match e with
  | EvDb op _ => Some op
  | _ => None
  end.

Definition db_ops (t : list event) : list db_op := omap db_op_of t.

(** The bulk inserts among them. *)
Definition is_insert (op : db_op) : bool :=
  match op with
  | ExecuteMany _ _ => true
  | _ => false
  end.

Definition inserts (t : list event) : list db_op :=
  List.filter is_insert (db_ops t).

(** An exchange answered with status 200, and one answered with status 200
    whose body decoded as JSON. *)
Definition answered_200 (x : string * gmap string string * get_outcome) : bool :=
  match x.2 with
  | GotResponse r => (status_code r =? 200)%Z
  | _ => false
  end.

Definition decoded_200 (x : string * gmap string string * get_outcome) : bool :=
  match x.2 with
  | GotResponse r => (status_code r =? 200)%Z && bool_decide (is_Some (body r))
  | _ => false
  end.

Definition count_decoded_200 (xs : list (string * gmap string string * get_outcome)) : nat :=
  List.length (List.filter decoded_200 xs).

(** ** Vocabulary of the properties *)

(** The headers both fetches send. *)
Definition token_header (API_KEY : string) : gmap string string :=
  {[ "X-Riot-Token" := API_KEY ]}.

(** A 429 whose [Retry-After] header reads as [d] seconds, with [d + 1] a
    duration [time.sleep] accepts. *)
Definition rate_limited (W : World) (r : response) (d : Z) : Prop :=
  status_code r = 429%Z
  ∧ ∃ v, header r "Retry-After" = Ok v ∧ py_int W v = Some d
         ∧ (0 <= d + 1 <= sleep_max W)%Z.

(** What [rounds] rate-limited attempts at [url] leave in the trace: each
    request, then the sleep of the announced duration plus one second. *)
Definition retry_events (url : string) (hdrs : gmap string string)
    (rounds : list (response * Z)) : list event :=
  rounds ≫= (fun rd => [EvGet url hdrs (GotResponse rd.1); EvSleep (rd.2 + 1)]).

(** The ladder entry [entry] is resolved by the exchange [ev] into the
    record [rec]: [ev] is the lookup of the entry's summoner id, answered
    200 with a body holding the puuid and account id of the record. *)
Definition resolved_by (W : World) (API_KEY region : string)
    (entry : json) (ev : event) (rec : row) : Prop :=
  ∃ summonerId summonerName url r d puuid account_id,
    getitem entry "summonerId" = Ok summonerId
    ∧ getitem entry "summonerName" = Ok summonerName
    ∧ create_puuid_url W summonerId region = Ok url
    ∧ ev = EvGet url (token_header API_KEY) (GotResponse r)
    ∧ status_code r = 200%Z
    ∧ body r = Some d
    ∧ getitem d "puuid" = Ok puuid
    ∧ getitem d "accountId" = Ok account_id
    ∧ rec = [puuid; summonerId; account_id; summonerName; JStr region].

(** An exchange of the trace is a per-player lookup: the token header was
    sent to the lookup URL of some summoner id in [region]. *)
Definition is_lookup (W : World) (API_KEY region : string)
    (x : string * gmap string string * get_outcome) : Prop :=
  x.1.2 = token_header API_KEY
  ∧ ∃ summonerId, create_puuid_url W summonerId region = Ok x.1.1.

(** A computation keeps [REQUESTS_COUNTER] in step with the lookups: from
    any state, every exchange it adds to the trace is a lookup, and the
    counter grows by the number of those answered 200 with a body that
    decoded. *)
Definition tracks_lookups (W : World) (API_KEY region : string) {A} (c : M A) : Prop :=
  ∀ s, ∃ new,
    trace (c s).2 = trace s ++ new
    ∧ Forall (is_lookup W API_KEY region) (gets new)
    ∧ REQUESTS_COUNTER (c s).2 = REQUESTS_COUNTER s + count_decoded_200 (gets new).

(** A ladder entry carries the two fields the orchestrator reads. *)
Definition is_ladder_entry (entry : json) : Prop :=
  ∃ summonerId summonerName,
    getitem entry "summonerId" = Ok summonerId
    ∧ getitem entry "summonerName" = Ok summonerName.

(** A lookup that succeeds with status 200: the body decodes and holds the
    two identifiers. *)
Definition lookup_ok (out : get_outcome) : Prop :=
  ∃ r d puuid account_id,
    out = GotResponse r
    ∧ status_code r = 200%Z
    ∧ body r = Some d
    ∧ getitem d "puuid" = Ok puuid
    ∧ getitem d "accountId" = Ok account_id.

(** The statement [insert_into_table] builds for rows of five values. *)
Definition insert_statement : string :=
  "INSERT INTO summonerID VALUES(?, ?, ?, ?, ?)".

(** The events a successful table creation adds. *)
Definition table_created (PATH_DB : string) : list event :=
  [EvDb (Connect PATH_DB) None; EvDb (Execute create_table_statement) None;
   EvDb Commit None; EvDb Close None].

(** The database can be opened and the table created after [hist]: the
    engine accepts the connection, the statement, the commit and the
    close, each asked after the ones before it. *)
Definition table_creation_accepted (W : World) (PATH_DB : string) (hist : list event) : Prop :=
  sqlite3 W hist (Connect PATH_DB) = None
  ∧ sqlite3 W (hist ++ [EvDb (Connect PATH_DB) None]) (Execute create_table_statement) = None
  ∧ sqlite3 W (hist ++ [EvDb (Connect PATH_DB) None;
                        EvDb (Execute create_table_statement) None]) Commit = None
  ∧ sqlite3 W (hist ++ [EvDb (Connect PATH_DB) None;
                        EvDb (Execute create_table_statement) None;
                        EvDb Commit None]) Close = None.

(** Every lookup of [entries] succeeds with status 200 when it is made:
    the first one after [hist], each later one after the exchanges of the
    entries before it. *)
Fixpoint lookups_served (W : World) (API_KEY region : string)
    (hist : list event) (entries : list json) : Prop :=
  match entries with
  | [] => True
  | entry :: rest =>
      ∃ summonerId url,
        getitem entry "summonerId" = Ok summonerId
        ∧ create_puuid_url W summonerId region = Ok url
        ∧ lookup_ok (requests_get W hist url (token_header API_KEY))
        ∧ lookups_served W API_KEY region
            (hist ++ [EvGet url (token_header API_KEY)
                        (requests_get W hist url (token_header API_KEY))]) rest
  end.

(** The state [s] after the events [new], the counter unchanged, and
    after [served] more lookups counted. *)
Definition extend (s : state) (new : list event) : state :=
  {| trace := trace s ++ new; REQUESTS_COUNTER := REQUESTS_COUNTER s |}.

Definition with_trace (s : state) (new : list event) (served : nat) : state :=
  {| trace := trace s ++ new; REQUESTS_COUNTER := REQUESTS_COUNTER s + served |}.

(** ** Test doubles

    Worlds with scripted answers, to run the program on concrete inputs. *)

(** A plain reader of signed decimals, standing for [int] on the headers
    used below. *)
Definition digit_of (c : ascii) : option Z :=
  let n := nat_of_ascii c in
  if ((48 <=? n) && (n <=? 57))%nat then Some (Z.of_nat (n - 48)) else None.

Fixpoint decimal_from (acc : Z) (s : string) : option Z :=
  match s with
  | EmptyString => Some acc
  | String c s' =>
      match digit_of c with
      | Some d => decimal_from (10 * acc + d) s'
      | None => None
      end
  end.

Definition decimal (s : string) : option Z :=
  match s with
  | EmptyString => None
  | String "-" (String c s') => Z.opp <$> decimal_from 0 (String c s')
  | _ => decimal_from 0 s
  end.

(** The longest sleep of an interpreter whose clock counts nanoseconds on
    64 bits. *)
Definition int64_seconds : Z := 9223372036.

(** The world that answers the n-th GET of a run with the n-th element of
    [replies] (a connection error once they are used up), whose database
    never fails. *)
Definition scripted (replies : list get_outcome) : World :=
  {| requests_get := fun hist _ _ =>
       default RaisedConnectionError (replies !! List.length (gets hist));
     sqlite3 := fun _ _ => None;
     py_int := decimal;
     py_str := fun _ => "?";
     sleep_max := int64_seconds |}.

(** The world that answers a GET by its URL alone, from a table of
    routes, whose database never fails. *)
Definition routed (routes : list (string * get_outcome)) : World :=
  {| requests_get := fun _ url _ =>
       default RaisedConnectionError ((list_to_map routes : gmap string get_outcome) !! url);
     sqlite3 := fun _ _ => None;
     py_int := decimal;
     py_str := fun _ => "?";
     sleep_max := int64_seconds |}.

Definition answer (status : Z) (hdrs : list (string * string)) (b : option json) : response :=
  {| status_code := status;
     headers := list_to_map (prod_map lower id <$> hdrs);
     body := b |}.

Definition reply (status : Z) (hdrs : list (string * string)) (b : option json) : get_outcome :=
  GotResponse (answer status hdrs b).

Definition obj (fields : list (string * json)) : json := JObj (list_to_map fields).

Definition ladder_entry (summonerId summonerName : string) : json :=
  obj [("summonerId", JStr summonerId); ("summonerName", JStr summonerName)].

Definition player (puuid accountId : string) : json :=
  obj [("puuid", JStr puuid); ("accountId", JStr accountId)].

Definition three_entries : json :=
  obj [("entries", JList [ladder_entry "s1" "Ann"; ladder_entry "s2" "Bob";
                          ladder_entry "s3" "Cid"])].

Definition na_master_url : string :=
  "https://na1.api.riotgames.com/lol/league/v4/masterleagues/by-queue/RANKED_SOLO_5x5".

Definition na_lookup_url (summonerId : string) : string :=
  "https://na1.api.riotgames.com/lol/summoner/v4/summoners/" +:+ summonerId.

Definition three_players_world : World :=
  routed [(na_master_url, reply 200 [] (Some three_entries));
          (na_lookup_url "s1", reply 200 [] (Some (player "p1" "a1")));
          (na_lookup_url "s2", reply 200 [] (Some (player "p2" "a2")));
          (na_lookup_url "s3", reply 200 [] (Some (player "p3" "a3")))].

(** The same listing and players, answered in the order of the requests. *)
Definition three_players_script : World :=
  scripted [reply 200 [] (Some three_entries);
            reply 200 [] (Some (player "p1" "a1"));
            reply 200 [] (Some (player "p2" "a2"));
            reply 200 [] (Some (player "p3" "a3"))].

(** A lookup rate-limited twice, then served. *)
Definition wait_two : response := answer 429 [("Retry-After", "2")] None.
Definition wait_none : response := answer 429 [("Retry-After", "0")] None.

Definition twice_limited_world : World :=
  scripted [GotResponse wait_two; GotResponse wait_none;
            reply 200 [] (Some (player "p1" "a1"))].

(** A listing fetch rate-limited once; a second attempt would be served. *)
Definition limited_listing_world : World :=
  scripted [GotResponse wait_two; reply 200 [] (Some three_entries)].

(** A listing without [entries], and one whose [entries] is empty. *)
Definition no_entries_world : World :=
  scripted [reply 200 [] (Some (obj [("tier", JStr "MASTER")]))].

Definition empty_listing_world : World :=
  scripted [reply 200 [] (Some (obj [("entries", JList [])]))].

(** The three players again, with an engine that refuses every batch
    insert, and with a database that cannot be opened. *)
Definition refused_insert_world : World :=
  {| requests_get := requests_get three_players_world;
     sqlite3 := fun _ op =>
       match op with
       | ExecuteMany _ _ => Some "UNIQUE constraint failed: summonerID.puuid"
       | _ => None
       end;
     py_int := decimal;
     py_str := fun _ => "?";
     sleep_max := int64_seconds |}.

Definition unreachable_db_world : World :=
  {| requests_get := requests_get three_players_world;
     sqlite3 := fun _ _ => Some "unable to open database file";
     py_int := decimal;
     py_str := fun _ => "?";
     sleep_max := int64_seconds |}.

Definition run {A} (c : M A) : outcome A * state := c initial_state.

(** ** The two kinds of tier *)

(** The tiers [tier_to_url] treats as division-less leaderboards, and the
    others. *)
Definition top_tiers : list string := ["master"; "grandmaster"; "challenger"].

Definition divided_tiers : list string :=
  ["iron"; "bronze"; "silver"; "gold"; "platinum"; "diamond"].

(** ** Kinds of events *)

(** Network-side events (a request, a sleep between two requests) and
    database-side events. *)
Definition is_net_event (e : event) : bool :=
  match e with
  | EvGet _ _ _ | EvSleep _ => true
  | EvDb _ _ => false
  end.

Definition is_db_event (e : event) : bool :=
  match e with
  | EvDb _ _ => true
  | _ => false
  end.

(** A computation adds to the trace only events of the kind [Q], whatever
    its outcome. *)
Definition only (Q : event -> bool) {A} (c : M A) : Prop :=
  ∀ s, ∃ new, trace (c s).2 = trace s ++ new ∧ Forall (fun e => Q e = true) new.




(** ** Placeholders *)

(** [n] question marks separated by a comma and a space: the parameter
    list of an SQL statement for rows of [n] values. *)
Definition placeholders (n : nat) : string := String.concat ", " (replicate n "?").

(** ** The entry point and the API key

    [get_api_key], [get_path_db] and [main] read the file system.  A
    [Host] gives what they see of it: the text of a file as Python's text
    layer delivers it (line ends already translated to a line feed; [None]
    when opening or reading raises), the working directory, and
    [os.path.join]. *)

Record Host : Type := {
  read_text : string -> option string;
  getcwd : string;
  path_join : string -> string -> string
}.

(** [str.isspace] on code points below 256. *)
Definition is_space (c : ascii) : bool :=
  let n := nat_of_ascii c in
  ((9 <=? n) && (n <=? 13) || (28 <=? n) && (n <=? 32) || (n =? 133) || (n =? 160))%nat.

Definition line_feed : ascii := ascii_of_nat 10.

(** [f.readline()] on a file just opened: the text up to and including
    the first line feed, or all of it when it has none. *)
Fixpoint readline (text : string) : string :=
  match text with
  | EmptyString => EmptyString
  | String c rest =>
      if Ascii.eqb c line_feed then String c EmptyString else String c (readline rest)
  end.

(** [str.strip()], as [lstrip] then [rstrip]. *)
Fixpoint lstrip (s : string) : string :=
  match s with
  | EmptyString => EmptyString
  | String c s' => if is_space c then lstrip s' else s
  end.

Fixpoint rstrip (s : string) : string :=
  match s with
  | EmptyString => EmptyString
  | String c s' =>
      match rstrip s' with
      | EmptyString => if is_space c then EmptyString else String c EmptyString
      | t => String c t
      end
  end.

Definition strip (s : string) : string := rstrip (lstrip s).

(** [get_api_key(file_name)] *)
Definition get_api_key (H : Host) (file_name : string) : option string :=
  (fun text => strip (readline text)) <$> read_text H file_name.

(** [get_path_db()] *)
Definition get_path_db (H : Host) : string := path_join H (getcwd H) DB_URL.

(** [main()], run in a fresh process: [None] when the key file cannot be
    read (the exception leaves [main]), else the run of the orchestrator
    for region "NA" (the default) and tier "Master". *)
Definition main (W : World) (H : Host) (room : nat) : option (outcome unit * state) :=
  API_KEY ← get_api_key H "API.in";
  let PATH_DB_URL := get_path_db H in
  Some (create_summoner_to_id_table W room API_KEY PATH_DB_URL "NA" "Master" initial_state).

(** Reading strings character by character. *)
Fixpoint all_chars (p : ascii -> bool) (s : string) : bool :=
  match s with
  | EmptyString => true
  | String c s' => p c && all_chars p s'
  end.

Definition first_char (s : string) : option ascii :=
  match s with
  | EmptyString => None
  | String c _ => Some c
  end.

Fixpoint last_char (s : string) : option ascii :=
  match s with
  | EmptyString => None
  | String c EmptyString => Some c
  | String _ s' => last_char s'
  end.

Definition not_line_feed (c : ascii) : bool := negb (Ascii.eqb c line_feed).

(** Blank padding inside a line: white space other than a line feed. *)
Definition is_padding (c : ascii) : bool := is_space c && not_line_feed c.

(** A key as it should come out of the file: not empty, no white space at
    either end, no line feed inside. *)
Definition is_bare_key (key : string) : bool :=
  match first_char key, last_char key with
  | Some a, Some z => negb (is_space a) && negb (is_space z) && all_chars not_line_feed key
  | _, _ => false
  end.

(** A host whose working directory holds the key file [API.in]. *)
Definition key_file_host (text : string) : Host :=
  {| read_text := fun name => if String.eqb name "API.in" then Some text else None;
     getcwd := "/home/user/League-Analyzer";
     path_join := fun a b => a +:+ "/" +:+ b |}.

(** * Properties *)

(** A decidable proposition, settled by evaluating its decision. *)
Ltac decide_by_compute := apply (bool_decide_unpack _); vm_compute; exact I.

(** ** URL builders *)

Lemma region_dict_lookup region :
  region ∈ region_codes -> ∃ url, region_dict !! region = Some url ∧ url ≠ "".
Proof.
  intros Hin. apply list_elem_of_In in Hin. cbn in Hin.
  repeat (destruct Hin as [<- | Hin]; [eexists; split; [vm_compute; reflexivity | discriminate] |]).
  destruct Hin.
Qed.

Lemma region_dict_lookup_None region :
  region ∉ region_codes -> region_dict !! region = None.
Proof. intros Hout. by apply not_elem_of_list_to_map_1. Qed.

(** C3, as the specification states it, fails: the table of [region_dict]
    has fifteen pairwise distinct region codes, and [region_to_url] returns
    a non-empty base endpoint for each of them, so no set of fourteen codes
    holds every accepted one. *)
Lemma C3_fifteen_regions_accepted :
  ∃ codes : list string,
    NoDup codes ∧ List.length codes = 15
    ∧ Forall (fun region => ∃ url, region_to_url region = Ok url ∧ url ≠ "") codes.
Proof.
  exists region_codes. split; [| split].
  - decide_by_compute.
  - reflexivity.
  - apply Forall_forall. intros region Hin. unfold region_to_url.
    destruct (region_dict_lookup region Hin) as (url & -> & Hne). eauto.
Qed.

(** C3 (amended): [region_to_url] returns a non-empty base endpoint for
    exactly the fifteen region codes of [region_dict], and fails with
    [InvalidRegion] for every other string. *)
Theorem C3_region_to_url_spec :
  region_codes = ["NA"; "EUW"; "EUN"; "BR"; "JP"; "KR"; "LA"; "OC"; "TR"; "RU";
                  "PH"; "SG"; "TH"; "TW"; "VN"]
  ∧ List.length region_codes = 15 ∧ NoDup region_codes
  ∧ ∀ region : string,
      (region ∈ region_codes -> ∃ url, region_to_url region = Ok url ∧ url ≠ "")
      ∧ (region ∉ region_codes -> region_to_url region = Err InvalidRegion).
Proof.
  split; [reflexivity |]. split; [reflexivity |]. split; [decide_by_compute |].
  intros region. unfold region_to_url. split.
  - intros Hin. destruct (region_dict_lookup region Hin) as (url & -> & Hne). eauto.
  - intros Hout. by rewrite region_dict_lookup_None.
Qed.

Lemma division_dict_lookup division :
  division ∈ division_codes -> ∃ numeral, division_dict !! division = Some numeral.
Proof.
  intros Hin. apply list_elem_of_In in Hin. cbn in Hin.
  repeat (destruct Hin as [<- | Hin]; [eexists; vm_compute; reflexivity |]).
  destruct Hin.
Qed.

(** C5, as stated, fails for a division outside [division_dict]: the
    division is checked first, so an unknown tier with an unknown division
    is reported as [InvalidDivision]. *)
Lemma C5_division_checked_first :
  (lower "wood" ∉ tier_set)
  ∧ tier_to_url "wood" "5" "1" = Err InvalidDivision
  ∧ tier_to_url "wood" "5" "1" ≠ Err InvalidTier.
Proof.
  split; [| split].
  - decide_by_compute.
  - vm_compute. reflexivity.
  - vm_compute. discriminate.
Qed.

(** C5 (amended): for every tier string whose lower-cased form is not one
    of the nine tier names, and every division that is a key of
    [division_dict] (the empty string, "1", "2", "3" or "4"), [tier_to_url]
    fails with [InvalidTier], whatever the page. *)
Theorem C5_invalid_tier (tier division page : string) :
  lower tier ∉ tier_set ->
  division ∈ division_codes ->
  tier_to_url tier division page = Err InvalidTier.
Proof.
  intros Htier Hdiv. unfold tier_to_url.
  destruct (division_dict_lookup division Hdiv) as [numeral ->].
  by rewrite bool_decide_eq_false_2.
Qed.

Lemma C5_invalid_tier_witness :
  tier_to_url "Wood" "2" "7" = Err InvalidTier.
Proof.
  apply C5_invalid_tier.
  - decide_by_compute.
  - decide_by_compute.
Defined.

(** C6: the base URL of region "NA" followed by the listing path of tier
    "gold", division "2", page "3" is exactly
    https://na1.api.riotgames.com/lol/league/v4/entries/RANKED_SOLO_5x5/gold/II?page=3 *)
Theorem C6_gold_listing_url :
  ∃ region_url tier_url : string,
    region_to_url "NA" = Ok region_url
    ∧ tier_to_url "gold" "2" "3" = Ok tier_url
    ∧ region_url +:+ tier_url
      = "https://na1.api.riotgames.com/lol/league/v4/entries/RANKED_SOLO_5x5/gold/II?page=3".
Proof.
  exists "https://na1.api.riotgames.com", "/lol/league/v4/entries/RANKED_SOLO_5x5/gold/II?page=3".
  repeat split; vm_compute; reflexivity.
Qed.

(** C7: [create_tier_url] for region "KR" and tier "Challenger" is exactly
    https://kr.api.riotgames.com/lol/league/v4/challengerleagues/by-queue/RANKED_SOLO_5x5:
    the tier lower-cased, the division-less leaderboard path, no page. *)
Theorem C7_challenger_listing_url :
  create_tier_url "KR" "Challenger"
  = Ok "https://kr.api.riotgames.com/lol/league/v4/challengerleagues/by-queue/RANKED_SOLO_5x5".
Proof. vm_compute. reflexivity. Qed.

(** C8: a top tier ("master", "grandmaster" or "challenger", in any
    letter case) with a division code "1", "2", "3" or "4" makes
    [tier_to_url] fail with [TierDivisionConflict]. *)
Theorem C8_top_tier_with_division (tier division page : string) :
  lower tier ∈ ["master"; "grandmaster"; "challenger"] ->
  division ∈ ["1"; "2"; "3"; "4"] ->
  tier_to_url tier division page = Err (TierDivisionConflict (lower tier)).
Proof.
  intros Htier Hdiv. unfold tier_to_url, TierDivisionConflict.
  apply list_elem_of_In in Htier. apply list_elem_of_In in Hdiv.
  cbn in Htier, Hdiv.
  destruct Htier as [<- | [<- | [<- | []]]];
    destruct Hdiv as [<- | [<- | [<- | [<- | []]]]];
    vm_compute; reflexivity.
Qed.

Lemma C8_top_tier_with_division_witness :
  tier_to_url "GrandMaster" "3" "1" = Err (TierDivisionConflict "grandmaster").
Proof.
  apply (C8_top_tier_with_division "GrandMaster" "3" "1").
  - decide_by_compute.
  - decide_by_compute.
Defined.

(** ** Steps of a run *)

Ltac unfold_run :=
  unfold bind, lift, ret, raise, exit, catch, http_get, db, sleep,
    increment_counter, response_json in *.

Section Steps.

Context (W : World).

(** A 429 with a readable [Retry-After]: the lookup sleeps and is back at
    its start, with the arguments it was called with. *)
Lemma get_id_summoner_429 room summonerId API_KEY region url r d s :
  create_puuid_url W summonerId region = Ok url ->
  requests_get W (trace s) url (token_header API_KEY) = GotResponse r ->
  rate_limited W r d ->
  get_id_summoner W (S room) summonerId API_KEY region s
  = get_id_summoner W room summonerId API_KEY region
      (log (EvSleep (d + 1)) (log (EvGet url (token_header API_KEY) (GotResponse r)) s)).
Proof.
  intros Hurl Hget (Hstatus & v & Hheader & Hint & Hwait).
  cbn [get_id_summoner]. unfold_run. rewrite Hurl. cbn.
  unfold token_header in Hget. rewrite Hget, Hstatus. cbn.
  rewrite Hheader, Hint.
  destruct (Z.ltb_spec (sleep_max W) (Z.abs (d + 1))) as [Hlong | _]; [lia |].
  destruct (Z.ltb_spec (d + 1) 0) as [Hneg | _]; [lia |]. reflexivity.
Qed.

(** A 200 with both identifiers in its body: the lookup counts it and
    returns them. *)
Lemma get_id_summoner_200 room summonerId API_KEY region url r d puuid account_id s :
  create_puuid_url W summonerId region = Ok url ->
  requests_get W (trace s) url (token_header API_KEY) = GotResponse r ->
  status_code r = 200%Z ->
  body r = Some d ->
  getitem d "puuid" = Ok puuid ->
  getitem d "accountId" = Ok account_id ->
  get_id_summoner W (S room) summonerId API_KEY region s
  = (Ret (puuid, account_id),
     with_trace s [EvGet url (token_header API_KEY) (GotResponse r)] 1).
Proof.
  intros Hurl Hget Hstatus Hbody Hpuuid Hacc.
  cbn [get_id_summoner]. unfold_run. rewrite Hurl. cbn.
  unfold token_header in Hget. rewrite Hget, Hstatus. cbn.
  rewrite Hbody, Hpuuid, Hacc. reflexivity.
Qed.

(** Any number of rate-limited rounds in a row. *)
Lemma get_id_summoner_rounds (rounds : list (response * Z)) room summonerId API_KEY region url s :
  create_puuid_url W summonerId region = Ok url ->
  (∀ i r d, rounds !! i = Some (r, d) ->
     requests_get W (trace s ++ retry_events url (token_header API_KEY) (take i rounds))
       url (token_header API_KEY) = GotResponse r
     ∧ rate_limited W r d) ->
  get_id_summoner W (List.length rounds + room) summonerId API_KEY region s
  = get_id_summoner W room summonerId API_KEY region
      (extend s (retry_events url (token_header API_KEY) rounds)).
Proof.
  intros Hurl. revert s.
  induction rounds as [| [r d] rounds IH]; intros s Hrounds.
  - cbn. unfold extend. cbn. rewrite app_nil_r. by destruct s.
  - destruct (Hrounds 0 r d eq_refl) as [Hget Hlimited].
    cbn in Hget. rewrite app_nil_r in Hget.
    cbn [List.length Nat.add].
    rewrite (get_id_summoner_429 _ _ _ _ url r d s Hurl Hget Hlimited).
    rewrite IH.
    + f_equal. unfold extend, log. cbn. by rewrite <- !app_assoc.
    + intros i r' d' Hi. specialize (Hrounds (S i) r' d' Hi).
      cbn in Hrounds. unfold log. cbn. by rewrite <- !app_assoc.
Qed.

End Steps.

(** ** The counter follows the lookups *)

Section Counter.

Context (W : World) (API_KEY region : string).

Local Abbreviation tracks := (tracks_lookups W API_KEY region).

Lemma gets_app t1 t2 : gets (t1 ++ t2) = gets t1 ++ gets t2.
Proof. apply omap_app. Qed.

Lemma count_decoded_200_app xs ys :
  count_decoded_200 (xs ++ ys) = count_decoded_200 xs + count_decoded_200 ys.
Proof. unfold count_decoded_200. by rewrite List.filter_app, length_app. Qed.

Lemma tracks_unchanged {A} (c : M A) :
  (∀ s, (c s).2 = s) -> tracks c.
Proof.
  intros Hc s. exists []. rewrite Hc, app_nil_r. cbn.
  split; [done | split; [constructor | lia]].
Qed.

Lemma tracks_ret {A} (a : A) : tracks (ret a).
Proof. by apply tracks_unchanged. Qed.

Lemma tracks_raise {A} e : tracks (@raise A e).
Proof. by apply tracks_unchanged. Qed.

Lemma tracks_lift {A} (r : result A) : tracks (lift r).
Proof. destruct r; [apply tracks_ret | apply tracks_raise]. Qed.

Lemma tracks_then (s s1 s2 : state) new1 new2 :
  trace s1 = trace s ++ new1 ->
  Forall (is_lookup W API_KEY region) (gets new1) ->
  REQUESTS_COUNTER s1 = REQUESTS_COUNTER s + count_decoded_200 (gets new1) ->
  trace s2 = trace s1 ++ new2 ->
  Forall (is_lookup W API_KEY region) (gets new2) ->
  REQUESTS_COUNTER s2 = REQUESTS_COUNTER s1 + count_decoded_200 (gets new2) ->
  trace s2 = trace s ++ (new1 ++ new2)
  ∧ Forall (is_lookup W API_KEY region) (gets (new1 ++ new2))
  ∧ REQUESTS_COUNTER s2 = REQUESTS_COUNTER s + count_decoded_200 (gets (new1 ++ new2)).
Proof.
  intros Ht1 Hl1 Hc1 Ht2 Hl2 Hc2.
  rewrite Ht2, Hc2, Ht1, Hc1, gets_app, count_decoded_200_app.
  split; [by rewrite app_assoc | split; [by apply Forall_app | lia]].
Qed.

Lemma tracks_bind_lift {A B} (r : result A) (k : A -> M B) :
  (∀ a, r = Ok a -> tracks (k a)) -> tracks (bind (lift r) k).
Proof.
  intros Hk. destruct r as [a | e].
  - exact (Hk a eq_refl).
  - by apply tracks_unchanged.
Qed.

Lemma tracks_bind {A B} (c : M A) (k : A -> M B) :
  tracks c -> (∀ a, tracks (k a)) -> tracks (bind c k).
Proof.
  intros Hc Hk s. destruct (Hc s) as (new1 & Ht1 & Hl1 & Hc1). unfold bind.
  destruct (c s) as [[a | e] s1] eqn:Hrun; cbn in *; eauto.
  destruct (Hk a s1) as (new2 & Ht2 & Hl2 & Hc2). exists (new1 ++ new2).
  by eapply (tracks_then s s1).
Qed.

Lemma tracks_catch {A} (c : M A) handler :
  tracks c ->
  (∀ e h, handler e = Some h -> tracks h) ->
  tracks (catch c handler).
Proof.
  intros Hc Hh s. destruct (Hc s) as (new1 & Ht1 & Hl1 & Hc1). unfold catch.
  destruct (c s) as [[a | e] s1] eqn:Hrun; cbn in *; eauto.
  destruct (handler e) as [h |] eqn:Hhandler; cbn; eauto.
  destruct (Hh e h Hhandler s1) as (new2 & Ht2 & Hl2 & Hc2). exists (new1 ++ new2).
  by eapply (tracks_then s s1).
Qed.

Lemma tracks_db op : tracks (db W op).
Proof.
  intros s. exists [EvDb op (sqlite3 W (trace s) op)]. unfold db.
  destruct (sqlite3 W (trace s) op); cbn; (split; [done | split; [constructor | lia]]).
Qed.

Lemma tracks_sleep secs : tracks (sleep W secs).
Proof.
  unfold sleep. destruct (_ <? _)%Z; [apply tracks_raise |].
  destruct (secs <? 0)%Z; [apply tracks_raise |].
  intros s. exists [EvSleep secs]. cbn. split; [done | split; [constructor | lia]].
Qed.

(** One exchange of a lookup and what follows it: the continuation adds
    one to the counter exactly when the exchange is a 200 whose body
    decoded. *)
Lemma tracks_get_then {A} url hdrs (k : get_outcome -> M A) :
  (∀ out, is_lookup W API_KEY region (url, hdrs, out)) ->
  (∀ out, decoded_200 (url, hdrs, out) = false -> tracks (k out)) ->
  (∀ out s, decoded_200 (url, hdrs, out) = true ->
     ∃ new, trace (k out s).2 = trace s ++ new
            ∧ Forall (is_lookup W API_KEY region) (gets new)
            ∧ REQUESTS_COUNTER (k out s).2
              = REQUESTS_COUNTER s + 1 + count_decoded_200 (gets new)) ->
  tracks (bind (http_get W url hdrs) k).
Proof.
  intros Hlookup Hfail Hok s. unfold bind, http_get. cbn [fst snd].
  set (out := requests_get W (trace s) url hdrs).
  set (s1 := log (EvGet url hdrs out) s).
  assert (Hgets : ∀ new, count_decoded_200 (gets (EvGet url hdrs out :: new))
          = (if decoded_200 (url, hdrs, out) then 1 else 0)
            + count_decoded_200 (gets new)).
  { intros new. unfold count_decoded_200. cbn.
    destruct (decoded_200 (url, hdrs, out)); reflexivity. }
  destruct (decoded_200 (url, hdrs, out)) eqn:Hsucc.
  - destruct (Hok out s1 Hsucc) as (new & Ht & Hl & Hc).
    exists (EvGet url hdrs out :: new). rewrite Ht, Hc, Hgets. cbn.
    split; [by rewrite <- app_assoc | split; [by constructor | lia]].
  - destruct (Hfail out Hsucc s1) as (new & Ht & Hl & Hc).
    exists (EvGet url hdrs out :: new). rewrite Ht, Hc, Hgets. cbn.
    split; [by rewrite <- app_assoc | split; [by constructor | lia]].
Qed.

Lemma get_id_summoner_tracks room summonerId :
  tracks (get_id_summoner W room summonerId API_KEY region).
Proof.
  induction room as [| room IH]; [by apply tracks_unchanged |].
  cbn [get_id_summoner].
  apply tracks_bind_lift. intros url Hurl. cbn zeta.
  apply tracks_get_then.
  - intros out. split; [done | by exists summonerId].
  - intros [r | |] Hfail; [| apply tracks_raise ..].
    destruct (status_code r =? 429)%Z eqn:H429.
    { repeat (apply tracks_bind; [first [apply tracks_lift | apply tracks_sleep] |]; intros ?).
      apply IH. }
    destruct (status_code r =? 200)%Z eqn:H200; cbn [negb]; [| apply tracks_raise].
    unfold decoded_200 in Hfail. cbn in Hfail. rewrite H200 in Hfail.
    destruct (body r) as [d |] eqn:Hbody; [done |].
    apply tracks_unchanged. intros s. unfold_run. by rewrite Hbody.
  - intros [r | |] s Hok; [| done ..].
    unfold decoded_200 in Hok. cbn in Hok.
    apply andb_true_iff in Hok as [H200 Hbody].
    apply Z.eqb_eq in H200. apply bool_decide_eq_true in Hbody as [d Hbody].
    rewrite H200. cbn. unfold_run. rewrite Hbody. cbn.
    exists []. rewrite app_nil_r.
    destruct (getitem d "puuid"); cbn; [| split; [done | split; [constructor | lia]]].
    destruct (getitem d "accountId"); cbn; (split; [done | split; [constructor | lia]]).
Qed.

Lemma resolve_accounts_tracks room accounts formatted_data :
  tracks (resolve_accounts W room API_KEY region accounts formatted_data).
Proof.
  revert formatted_data.
  induction accounts as [| account rest IH]; intros formatted_data; cbn [resolve_accounts].
  - apply tracks_ret.
  - apply tracks_bind; [apply tracks_lift |]. intros summonerId.
    apply tracks_bind; [apply tracks_lift |]. intros summonerName.
    apply tracks_bind; [apply get_id_summoner_tracks |]. intros [puuid account_id].
    apply IH.
Qed.

Lemma create_connection_tracks path : tracks (create_connection W path).
Proof.
  apply tracks_catch; [apply tracks_db |].
  intros [] h [= <-]. apply tracks_raise.
Qed.

Lemma create_summonerID_table_tracks : tracks (create_summonerID_table W).
Proof.
  apply tracks_catch.
  - repeat (apply tracks_bind; [apply tracks_db |]; intros ?). apply tracks_ret.
  - intros [] h [= <-]; apply tracks_raise.
Qed.

Lemma insert_into_table_tracks path table_name data :
  tracks (insert_into_table W path table_name data).
Proof.
  unfold insert_into_table.
  apply tracks_bind.
  { apply tracks_catch; [apply tracks_db |]. intros [] h [= <-]. apply tracks_raise. }
  intros _. apply tracks_bind; [apply tracks_lift |]. intros first_row. cbn zeta.
  apply tracks_bind.
  { apply tracks_catch; [apply tracks_db |]. intros [] h [= <-].
    apply tracks_bind; [apply tracks_db |]. intros _. apply tracks_raise. }
  intros _. apply tracks_bind; [apply tracks_db |]. intros _. apply tracks_db.
Qed.

(** What the orchestrator does once the listing has been fetched. *)
Local Abbreviation after_listing room PATH_DB got :=
  (match got with
   | RaisedConnectionError => exit
   | RaisedOtherRequestError => raise RequestException
   | GotResponse response =>
       if negb (status_code response =? 200)%Z then exit
       else
         response_dict <~ lift (response_json response) ;;
         accounts_data <~ lift (getitem response_dict "entries") ;;
         catch (create_connection W PATH_DB)
           (fun e => match e with ValueError _ => Some exit | _ => None end) ;;;
         table_name <~ create_summonerID_table W ;;
         accounts <~ lift (py_iter accounts_data) ;;
         formatted_data <~ resolve_accounts W room API_KEY region accounts [] ;;
         insert_into_table W PATH_DB table_name formatted_data
   end).

Lemma after_listing_tracks room PATH_DB (got : get_outcome) :
  tracks (after_listing room PATH_DB got).
Proof.
  destruct got as [r | |]; [| apply tracks_raise ..].
  destruct (negb _); [apply tracks_raise |].
  apply tracks_bind; [apply tracks_lift |]. intros response_dict.
  apply tracks_bind; [apply tracks_lift |]. intros accounts_data.
  apply tracks_bind.
  { apply tracks_catch; [apply create_connection_tracks |].
    intros [] h [= <-]. apply tracks_raise. }
  intros _. apply tracks_bind; [apply create_summonerID_table_tracks |]. intros table_name.
  apply tracks_bind; [apply tracks_lift |]. intros accounts.
  apply tracks_bind; [apply resolve_accounts_tracks |]. intros formatted_data.
  apply insert_into_table_tracks.
Qed.

Lemma orchestrator_tracks room PATH_DB tier s :
  ∃ new,
    let s' := (create_summoner_to_id_table W room API_KEY PATH_DB region tier s).2 in
    trace s' = trace s ++ new
    ∧ (∀ x, head (gets new) = Some x ->
         x.1.2 = token_header API_KEY ∧ create_tier_url region tier = Ok x.1.1)
    ∧ Forall (is_lookup W API_KEY region) (tail (gets new))
    ∧ REQUESTS_COUNTER s'
      = REQUESTS_COUNTER s + count_decoded_200 (tail (gets new)).
Proof.
  destruct (create_tier_url region tier) as [url | e] eqn:Hurl.
  2:{ exists []. unfold create_summoner_to_id_table. rewrite Hurl. cbn.
      rewrite app_nil_r.
      split; [done | split; [done | split; [constructor | lia]]]. }
  set (out := requests_get W (trace s) url (token_header API_KEY)).
  set (s1 := log (EvGet url (token_header API_KEY) out) s).
  assert (Hrun : create_summoner_to_id_table W room API_KEY PATH_DB region tier s
                 = after_listing room PATH_DB out s1).
  { unfold create_summoner_to_id_table. rewrite Hurl. reflexivity. }
  destruct (after_listing_tracks room PATH_DB out s1) as (new & Ht & Hl & Hc).
  exists (EvGet url (token_header API_KEY) out :: new). cbn zeta.
  rewrite Hrun, Ht, Hc. cbn. split; [by rewrite <- app_assoc |].
  split; [by intros x [= <-] |]. done.
Qed.

End Counter.

(** Whatever happens next, a lookup that has room left starts with its
    request. *)
Lemma get_id_summoner_first_request W room summonerId API_KEY region url s :
  create_puuid_url W summonerId region = Ok url ->
  ∃ rest,
    trace (get_id_summoner W (S room) summonerId API_KEY region s).2
    = trace s ++ EvGet url (token_header API_KEY)
                   (requests_get W (trace s) url (token_header API_KEY)) :: rest.
Proof.
  intros Hurl. cbn [get_id_summoner]. rewrite Hurl. unfold_run. cbn.
  fold (token_header API_KEY).
  destruct (requests_get W (trace s) url (token_header API_KEY)) as [r | |];
    cbn; [| by exists [] ..].
  destruct (status_code r =? 429)%Z.
  - destruct (header r "Retry-After") as [v | e]; cbn; [| by exists []].
    destruct (py_int W v) as [seconds |]; cbn; [| by exists []].
    destruct (sleep_max W <? Z.abs (seconds + 1))%Z; cbn; [by exists [] |].
    destruct (seconds + 1 <? 0)%Z; cbn; [by exists [] |].
    match goal with
    | |- context [get_id_summoner W room summonerId API_KEY region ?s2] =>
        destruct (get_id_summoner_tracks W API_KEY region room summonerId s2)
          as (new & Hnew & _)
    end.
    destruct (get_id_summoner W room summonerId API_KEY region _) as [[ids | e] s3];
      cbn in *; rewrite Hnew; rewrite <- !app_assoc; by eexists.
  - destruct (negb _); cbn; [by exists [] |].
    destruct (body r) as [d |]; cbn; [| by exists []].
    destruct (getitem d "puuid"); cbn; [| by exists []].
    destruct (getitem d "accountId"); cbn; by exists [].
Qed.

(** C9, as stated, fails on either side of the increment, which follows
    [response.json()] and precedes the reading of the identifiers.  A
    lookup answered 200 whose body does not decode has completed with
    status 200 and is not counted: one such exchange, the counter at zero.
    A lookup answered 200 whose body lacks [accountId] is counted although
    it raises: no lookup has succeeded, the counter at one. *)
Lemma C9_counter_not_the_200s :
  let undecoded :=
    run (get_id_summoner (scripted [reply 200 [] None]) 1 (JStr "s1") "KEY" "NA") in
  let fieldless :=
    run (get_id_summoner (scripted [reply 200 [] (Some (obj [("puuid", JStr "p1")]))]) 1
           (JStr "s1") "KEY" "NA") in
  undecoded.1 = Raise JSONDecodeError
  ∧ List.length (List.filter answered_200 (gets (trace undecoded.2))) = 1
  ∧ REQUESTS_COUNTER undecoded.2 = 0
  ∧ fieldless.1 = Raise (KeyError "accountId")
  ∧ List.length (List.filter answered_200 (gets (trace fieldless.2))) = 1
  ∧ REQUESTS_COUNTER fieldless.2 = 1.
Proof. cbn zeta. repeat split; vm_compute; reflexivity. Qed.

(** C9 (amended): [REQUESTS_COUNTER] counts the per-player lookups
    answered with status 200 whose body decoded as JSON.  From any state
    and whatever room the interpreter leaves for retries, a call of
    [get_id_summoner] issues only lookups and raises the counter by the
    number of them answered 200 with a body that decoded (so by nothing
    for a 429, and by one for a 200 whose identifiers are then found
    missing); a run of the orchestrator issues the listing fetch first,
    then only lookups, and raises the counter by the number of lookups
    answered 200 with a body that decoded, the listing fetch not
    counted. *)
Theorem C9_request_counter (W : World) (API_KEY region : string) :
  (∀ room summonerId,
     tracks_lookups W API_KEY region (get_id_summoner W room summonerId API_KEY region))
  ∧ (∀ room PATH_DB tier s,
       ∃ new,
         let s' := (create_summoner_to_id_table W room API_KEY PATH_DB region tier s).2 in
         trace s' = trace s ++ new
         ∧ (∀ x, head (gets new) = Some x ->
              x.1.2 = token_header API_KEY ∧ create_tier_url region tier = Ok x.1.1)
         ∧ Forall (is_lookup W API_KEY region) (tail (gets new))
         ∧ REQUESTS_COUNTER s'
           = REQUESTS_COUNTER s + count_decoded_200 (tail (gets new))).
Proof.
  split; [intros; apply get_id_summoner_tracks | intros; apply orchestrator_tracks].
Qed.

(** ** Rate limiting *)

(** The listing fetch has no retry: any status but 200 ends the run. *)
Lemma listing_not_200_exits W room API_KEY PATH_DB region tier url r s :
  create_tier_url region tier = Ok url ->
  requests_get W (trace s) url (token_header API_KEY) = GotResponse r ->
  status_code r ≠ 200%Z ->
  create_summoner_to_id_table W room API_KEY PATH_DB region tier s
  = (Raise SystemExit, extend s [EvGet url (token_header API_KEY) (GotResponse r)]).
Proof.
  intros Hurl Hget Hstatus. unfold create_summoner_to_id_table.
  rewrite Hurl. unfold_run. cbn. unfold token_header in Hget. rewrite Hget.
  apply Z.eqb_neq in Hstatus. by rewrite Hstatus.
Qed.

(** C2, as stated, fails for the ladder-listing fetch: answered 429 with
    [Retry-After: 2], the orchestrator neither sleeps nor asks again (the
    next answer would have been a 200), it exits after that one request. *)
Lemma C2_listing_fetch_not_retried :
  let result :=
    run (create_summoner_to_id_table limited_listing_world 5 "KEY" "db/data.db" "NA" "Master") in
  result.1 = Raise SystemExit
  ∧ gets (trace result.2)
    = [(na_master_url, token_header "KEY", GotResponse wait_two)]
  ∧ sleeps (trace result.2) = []
  ∧ rate_limited limited_listing_world wait_two 2.
Proof.
  cbn zeta. split; [| split; [| split]].
  - vm_compute. reflexivity.
  - vm_compute. reflexivity.
  - vm_compute. reflexivity.
  - split; [reflexivity |]. exists "2". split; [vm_compute; reflexivity |].
    split; [vm_compute; reflexivity | by vm_compute].
Qed.

(** C2 (amended): for the per-player lookup, each answer with status 429
    makes the fetcher read the [Retry-After] duration, sleep for it plus
    one second, and repeat the identical request by calling itself.  The
    code sets no cap and no backoff of its own: after any number of such
    answers in a row the trace holds each request followed by its sleep
    and the run is the same call again, one nested call deeper per answer;
    with room left for a call its next step is the same request once more,
    and when the answers have used up all the room the interpreter allows,
    the lookup ends in [RecursionError]. *)
Theorem C2_lookup_retries W (rounds : list (response * Z))
    room summonerId API_KEY region url s :
  create_puuid_url W summonerId region = Ok url ->
  (∀ i r d, rounds !! i = Some (r, d) ->
     requests_get W (trace s ++ retry_events url (token_header API_KEY) (take i rounds))
       url (token_header API_KEY) = GotResponse r
     ∧ rate_limited W r d) ->
  let s' := extend s (retry_events url (token_header API_KEY) rounds) in
  get_id_summoner W (List.length rounds + room) summonerId API_KEY region s
  = get_id_summoner W room summonerId API_KEY region s'
  ∧ sleeps (trace s') = sleeps (trace s) ++ ((fun rd => (rd.2 + 1)%Z) <$> rounds)
  ∧ get_id_summoner W (List.length rounds) summonerId API_KEY region s
    = (Raise RecursionError, s')
  ∧ ∃ rest,
      trace (get_id_summoner W (List.length rounds + S room) summonerId API_KEY region s).2
      = trace s' ++ EvGet url (token_header API_KEY)
                      (requests_get W (trace s') url (token_header API_KEY)) :: rest.
Proof.
  intros Hurl Hrounds s'.
  pose proof (get_id_summoner_rounds W rounds) as Hrun.
  split; [by apply Hrun |]. split; [| split].
  - unfold s', extend, sleeps. cbn. rewrite omap_app. f_equal.
    clear. induction rounds as [| [r d] rounds IH]; [done |]. cbn. by f_equal.
  - rewrite <- (Nat.add_0_r (List.length rounds)). by rewrite (Hrun 0 _ _ _ url s).
  - rewrite (Hrun (S room) _ _ _ url s) by done. by apply get_id_summoner_first_request.
Qed.

Lemma C2_lookup_retries_witness :
  let W := twice_limited_world in
  let s' := extend initial_state
              (retry_events (na_lookup_url "s1") (token_header "KEY")
                 [(wait_two, 2%Z); (wait_none, 0%Z)]) in
  get_id_summoner W (2 + 1) (JStr "s1") "KEY" "NA" initial_state
  = get_id_summoner W 1 (JStr "s1") "KEY" "NA" s'
  ∧ sleeps (trace s') = [3%Z; 1%Z]
  ∧ get_id_summoner W 2 (JStr "s1") "KEY" "NA" initial_state = (Raise RecursionError, s')
  ∧ ∃ rest,
      trace (get_id_summoner W (2 + 2) (JStr "s1") "KEY" "NA" initial_state).2
      = trace s' ++ EvGet (na_lookup_url "s1") (token_header "KEY")
                      (requests_get W (trace s') (na_lookup_url "s1") (token_header "KEY"))
                    :: rest.
Proof.
  apply (C2_lookup_retries twice_limited_world [(wait_two, 2%Z); (wait_none, 0%Z)]
           1 (JStr "s1") "KEY" "NA" (na_lookup_url "s1") initial_state).
  - vm_compute. reflexivity.
  - intros [| [| i]] r d Hi; cbn in Hi; [| | done].
    + injection Hi as <- <-. split; [vm_compute; reflexivity |].
      split; [reflexivity |]. exists "2".
      split; [vm_compute; reflexivity |]. split; [vm_compute; reflexivity | by vm_compute].
    + injection Hi as <- <-. split; [vm_compute; reflexivity |].
      split; [reflexivity |]. exists "0".
      split; [vm_compute; reflexivity |]. split; [vm_compute; reflexivity | by vm_compute].
Defined.

(** ** The orchestrator *)

(** C4: when the listing response (a 200 whose body is a JSON object) has
    no [entries] field, the orchestrator fails with [MalformedResponse]
    (the [KeyError] of the missing field), having issued the listing
    request and nothing else: no lookup request, no database operation,
    no insert. *)
Theorem C4_missing_entries W room API_KEY PATH_DB region tier url r d s :
  create_tier_url region tier = Ok url ->
  requests_get W (trace s) url (token_header API_KEY) = GotResponse r ->
  status_code r = 200%Z ->
  body r = Some (JObj d) ->
  d !! "entries" = None ->
  let result := create_summoner_to_id_table W room API_KEY PATH_DB region tier s in
  result.1 = Raise (MalformedResponse "entries")
  ∧ gets (trace result.2)
    = gets (trace s) ++ [(url, token_header API_KEY, GotResponse r)]
  ∧ db_ops (trace result.2) = db_ops (trace s)
  ∧ inserts (trace result.2) = inserts (trace s).
Proof.
  intros Hurl Hget Hstatus Hbody Hentries result.
  assert (Hrun : result
                 = (Raise (KeyError "entries"),
                    extend s [EvGet url (token_header API_KEY) (GotResponse r)])).
  { unfold result, create_summoner_to_id_table. rewrite Hurl. unfold_run. cbn.
    unfold token_header in Hget. rewrite Hget, Hstatus. cbn.
    rewrite Hbody. cbn. by rewrite Hentries. }
  rewrite Hrun. cbn. unfold gets, inserts, db_ops. rewrite !omap_app. cbn.
  by rewrite app_nil_r.
Qed.

Lemma C4_missing_entries_witness :
  let result :=
    run (create_summoner_to_id_table no_entries_world 1 "KEY" "db/data.db" "NA" "Master") in
  result.1 = Raise (MalformedResponse "entries")
  ∧ gets (trace result.2)
    = [(na_master_url, token_header "KEY",
        reply 200 [] (Some (obj [("tier", JStr "MASTER")])))]
  ∧ db_ops (trace result.2) = []
  ∧ inserts (trace result.2) = [].
Proof.
  apply (C4_missing_entries no_entries_world 1 "KEY" "db/data.db" "NA" "Master"
           na_master_url (answer 200 [] (Some (obj [("tier", JStr "MASTER")])))
           (list_to_map [("tier", JStr "MASTER")]) initial_state).
  - vm_compute. reflexivity.
  - vm_compute. reflexivity.
  - reflexivity.
  - reflexivity.
  - vm_compute. reflexivity.
Defined.

(** With a database that accepts every operation. *)
Section HealthyDatabase.

Context (W : World) (Hdb : ∀ hist op, sqlite3 W hist op = None).

Lemma db_ok op s : db W op s = (Ret tt, extend s [EvDb op None]).
Proof. unfold db. by rewrite Hdb. Qed.

Lemma create_connection_ok path s :
  create_connection W path s = (Ret tt, extend s [EvDb (Connect path) None]).
Proof. unfold create_connection, catch. by rewrite db_ok. Qed.

Lemma create_summonerID_table_ok s :
  create_summonerID_table W s
  = (Ret "summonerID",
     extend s [EvDb (Execute create_table_statement) None; EvDb Commit None;
               EvDb Close None]).
Proof.
  unfold create_summonerID_table, catch, bind. rewrite !db_ok. cbn.
  unfold extend. cbn. by rewrite <- !app_assoc.
Qed.

Lemma insert_into_table_empty path table_name s :
  insert_into_table W path table_name [] s
  = (Raise IndexError, extend s [EvDb (Connect path) None]).
Proof. unfold insert_into_table, catch, bind. by rewrite db_ok. Qed.

End HealthyDatabase.

(** C10: [insert_into_table] needs a first row.  With a database that
    accepts every operation, a call with an empty row list connects and
    then raises [IndexError] without inserting anything, and so a run over
    a listing whose [entries] is empty (the table once created) ends in
    that [IndexError] instead of completing. *)
Theorem C10_empty_row_list W room API_KEY PATH_DB region tier url r d s :
  (∀ hist op, sqlite3 W hist op = None) ->
  create_tier_url region tier = Ok url ->
  requests_get W (trace s) url (token_header API_KEY) = GotResponse r ->
  status_code r = 200%Z ->
  body r = Some (JObj d) ->
  d !! "entries" = Some (JList []) ->
  (∀ path table_name s0,
     insert_into_table W path table_name [] s0
     = (Raise IndexError, extend s0 [EvDb (Connect path) None]))
  ∧ create_summoner_to_id_table W room API_KEY PATH_DB region tier s
    = (Raise IndexError,
       extend s (EvGet url (token_header API_KEY) (GotResponse r)
                 :: table_created PATH_DB ++ [EvDb (Connect PATH_DB) None])).
Proof.
  intros Hdb Hurl Hget Hstatus Hbody Hentries.
  split; [intros; by apply insert_into_table_empty |].
  unfold create_summoner_to_id_table. rewrite Hurl.
  unfold bind at 1. cbn [lift ret]. unfold bind at 1, http_get at 1. cbn [fst snd].
  unfold token_header in Hget. rewrite Hget, Hstatus. cbn [Z.eqb Pos.eqb negb].
  unfold response_json. rewrite Hbody. unfold bind at 1. cbn [lift ret].
  unfold getitem. rewrite Hentries. unfold bind at 1. cbn [lift ret].
  unfold bind at 1, catch at 1. rewrite (create_connection_ok W Hdb).
  unfold bind at 1. rewrite (create_summonerID_table_ok W Hdb).
  unfold bind at 1. cbn [py_iter lift ret].
  unfold bind at 1. cbn [resolve_accounts ret].
  rewrite (insert_into_table_empty W Hdb).
  f_equal. unfold extend, log, table_created, token_header. cbn. f_equal.
  by rewrite <- !app_assoc.
Qed.

Lemma C10_empty_row_list_witness :
  (∀ path table_name s0,
     insert_into_table empty_listing_world path table_name [] s0
     = (Raise IndexError, extend s0 [EvDb (Connect path) None]))
  ∧ create_summoner_to_id_table empty_listing_world 1 "KEY" "db/data.db" "NA" "Master"
      initial_state
    = (Raise IndexError,
       extend initial_state
         (EvGet na_master_url (token_header "KEY")
            (reply 200 [] (Some (obj [("entries", JList [])])))
          :: table_created "db/data.db" ++ [EvDb (Connect "db/data.db") None])).
Proof.
  apply (C10_empty_row_list empty_listing_world 1 "KEY" "db/data.db" "NA" "Master"
           na_master_url (answer 200 [] (Some (obj [("entries", JList [])])))
           (list_to_map [("entries", JList [])]) initial_state).
  - reflexivity.
  - vm_compute. reflexivity.
  - vm_compute. reflexivity.
  - reflexivity.
  - reflexivity.
  - vm_compute. reflexivity.
Defined.

(** *** Resolving a listing *)

Lemma create_tier_url_region region tier url :
  create_tier_url region tier = Ok url -> ∃ base, region_to_url region = Ok base.
Proof.
  unfold create_tier_url. destruct (region_to_url region) as [base | e]; [eauto |].
  by destruct e.
Qed.

Lemma with_trace_twice s new1 n1 new2 n2 :
  with_trace (with_trace s new1 n1) new2 n2 = with_trace s (new1 ++ new2) (n1 + n2).
Proof. unfold with_trace. cbn. f_equal; [by rewrite app_assoc | lia]. Qed.

Lemma resolved_by_gets W API_KEY region entries evs rows :
  Forall3 (resolved_by W API_KEY region) entries evs rows ->
  List.length (gets evs) = List.length entries
  ∧ inserts evs = []
  ∧ Forall (fun rec => List.length rec = 5) rows.
Proof.
  induction 1 as [| entry ev rec entries evs rows Hres _ (IHg & IHi & IHr)]; [done |].
  destruct Hres as (sid & name & url & r & d & puuid & acc & _ & _ & _ & -> & _ & _ & _ & _ & ->).
  cbn. split; [by f_equal |]. split; [done | by constructor].
Qed.

(** Every entry of the listing resolved at its first request. *)
Lemma resolve_accounts_all_ok W room API_KEY region base entries :
  region_to_url region = Ok base ->
  Forall is_ladder_entry entries ->
  (∀ hist entry summonerId url,
     entry ∈ entries ->
     getitem entry "summonerId" = Ok summonerId ->
     create_puuid_url W summonerId region = Ok url ->
     lookup_ok (requests_get W hist url (token_header API_KEY))) ->
  ∀ formatted_data s,
  ∃ evs rows,
    Forall3 (resolved_by W API_KEY region) entries evs rows
    ∧ resolve_accounts W (S room) API_KEY region entries formatted_data s
      = (Ret (formatted_data ++ rows), with_trace s evs (List.length entries)).
Proof.
  intros Hregion Hentries Hlookups.
  induction entries as [| entry entries IH]; intros formatted_data s.
  - exists [], []. split; [constructor |]. cbn. unfold ret, with_trace.
    rewrite !app_nil_r, Nat.add_0_r. by destruct s.
  - apply Forall_cons in Hentries as [(sid & name & Hsid & Hname) Hentries].
    set (lurl := base +:+ ("/lol/summoner/v4/summoners/" +:+ format W sid)).
    assert (Hurl : create_puuid_url W sid region = Ok lurl).
    { unfold create_puuid_url. by rewrite Hregion. }
    destruct (Hlookups (trace s) entry sid lurl ltac:(left) Hsid Hurl)
      as (r & d & puuid & acc & Hget & Hstatus & Hbody & Hpuuid & Hacc).
    destruct (IH Hentries
                ltac:(intros hist e ? ? He; apply Hlookups; by right)
                (formatted_data ++ [[puuid; sid; acc; name; JStr region]])
                (with_trace s [EvGet lurl (token_header API_KEY) (GotResponse r)] 1))
      as (evs & rows & Hall & Hrun).
    eexists (_ :: evs), (_ :: rows). split.
    + constructor; [| exact Hall].
      exists sid, name, lurl, r, d, puuid, acc. by repeat split.
    + cbn [resolve_accounts]. rewrite Hsid, Hname. unfold bind at 1. cbn [lift ret].
      unfold bind at 1. cbn [lift ret]. unfold bind at 1.
      rewrite (get_id_summoner_200 W room sid API_KEY region lurl r d puuid acc s
                 Hurl Hget Hstatus Hbody Hpuuid Hacc).
      rewrite Hrun, with_trace_twice. cbn. by rewrite <- app_assoc.
Qed.

(** ** The scenarios of the specification, run *)

(** Three ladder entries, three lookups served at once: four requests,
    three records inserted in listing order, the counter at three. *)
Example three_players_run :
  let result :=
    run (create_summoner_to_id_table three_players_world 1 "KEY" "db/data.db" "NA" "Master") in
  result.1 = Ret tt
  ∧ (fun x => x.1.1) <$> gets (trace result.2)
    = [na_master_url; na_lookup_url "s1"; na_lookup_url "s2"; na_lookup_url "s3"]
  ∧ inserts (trace result.2)
    = [ExecuteMany insert_statement
         [[JStr "p1"; JStr "s1"; JStr "a1"; JStr "Ann"; JStr "NA"];
          [JStr "p2"; JStr "s2"; JStr "a2"; JStr "Bob"; JStr "NA"];
          [JStr "p3"; JStr "s3"; JStr "a3"; JStr "Cid"; JStr "NA"]]]
  ∧ REQUESTS_COUNTER result.2 = 3.
Proof. cbn zeta. repeat split; vm_compute; reflexivity. Qed.

(** A lookup answered 429 ([Retry-After: 2]), 429 ([Retry-After: 0]), then
    200: three identical requests, sleeps of 3 and 1 seconds, one lookup
    counted. *)
Example twice_limited_run :
  let result := run (get_id_summoner twice_limited_world 3 (JStr "s1") "KEY" "NA") in
  result.1 = Ret (JStr "p1", JStr "a1")
  ∧ (fun x => x.1.1) <$> gets (trace result.2)
    = [na_lookup_url "s1"; na_lookup_url "s1"; na_lookup_url "s1"]
  ∧ sleeps (trace result.2) = [3%Z; 1%Z]
  ∧ REQUESTS_COUNTER result.2 = 1.
Proof. cbn zeta. repeat split; vm_compute; reflexivity. Qed.

(** With room for two nested calls only, the same lookup makes its two
    rate-limited requests, sleeps after each, and ends in [RecursionError]
    when it calls itself the second time. *)
Example twice_limited_no_room :
  let result := run (get_id_summoner twice_limited_world 2 (JStr "s1") "KEY" "NA") in
  result.1 = Raise RecursionError
  ∧ (fun x => x.1.1) <$> gets (trace result.2) = [na_lookup_url "s1"; na_lookup_url "s1"]
  ∧ sleeps (trace result.2) = [3%Z; 1%Z].
Proof. cbn zeta. repeat split; vm_compute; reflexivity. Qed.

(** * Further properties of the code *)

(** ** URL builders, continued *)

Lemma lower_char_idempotent c : lower_char (lower_char c) = lower_char c.
Proof. destruct c as [[] [] [] [] [] [] [] []]; reflexivity. Qed.

Lemma lower_idempotent s : lower (lower s) = lower s.
Proof.
  induction s as [| c s IH]; [done |]. cbn. by rewrite lower_char_idempotent, IH.
Qed.

Lemma division_dict_lookup_None division :
  division ∉ division_codes -> division_dict !! division = None.
Proof. intros Hout. by apply not_elem_of_list_to_map_1. Qed.

Lemma tier_to_url_default tier :
  tier_to_url tier "" "1"
  = if bool_decide (lower tier ∈ tier_set)
    then if bool_decide (lower tier ∈ top_tiers)
         then Ok ("/lol/league/v4/" +:+ lower tier +:+ "leagues/by-queue/RANKED_SOLO_5x5")
         else Ok ("/lol/league/v4/entries/RANKED_SOLO_5x5/" +:+ lower tier +:+ "/?page=1")
    else Err InvalidTier.
Proof.
  unfold tier_to_url.
  change (division_dict !! "") with (Some "").
  destruct (bool_decide (lower tier ∈ tier_set)); cbn [negb]; [| done].
  rewrite andb_false_r.
  destruct (bool_decide (lower tier ∈ top_tiers)) eqn:Htop.
  - apply bool_decide_eq_true in Htop. apply list_elem_of_In in Htop. cbn in Htop.
    destruct Htop as [<- | [<- | [<- | []]]]; reflexivity.
  - apply bool_decide_eq_false in Htop.
    assert (Hnot : bool_decide (lower tier = "master")
                   || bool_decide (lower tier = "grandmaster")
                   || bool_decide (lower tier = "challenger") = false).
    { rewrite !orb_false_iff. repeat split; apply bool_decide_eq_false;
        intros Heq; apply Htop; rewrite Heq; decide_by_compute. }
    by rewrite Hnot.
Qed.

(** X1: for each of the six tiers below master, in any letter case, and
    each division code of [division_dict], [tier_to_url] returns the
    paginated entries path made of the lower-cased tier, the Roman numeral
    of the division and the page as given. *)
Theorem X1_divided_tier_path (tier division numeral page : string) :
  lower tier ∈ divided_tiers ->
  division_dict !! division = Some numeral ->
  tier_to_url tier division page
  = Ok ("/lol/league/v4/entries/RANKED_SOLO_5x5/" +:+ lower tier +:+ "/"
        +:+ numeral +:+ "?page=" +:+ page).
Proof.
  intros Htier Hnum. unfold tier_to_url. rewrite Hnum.
  apply list_elem_of_In in Htier. cbn in Htier.
  destruct Htier as [<- | [<- | [<- | [<- | [<- | [<- | []]]]]]]; reflexivity.
Qed.

Lemma X1_divided_tier_path_witness :
  tier_to_url "Diamond" "4" "12"
  = Ok "/lol/league/v4/entries/RANKED_SOLO_5x5/diamond/IV?page=12".
Proof.
  apply (X1_divided_tier_path "Diamond" "4" "IV" "12").
  - decide_by_compute.
  - vm_compute. reflexivity.
Defined.

(** X2: a division that is not a key of [division_dict] makes
    [tier_to_url] fail with [InvalidDivision] whatever the tier and the
    page, a valid top tier included: the division is validated before
    anything else. *)
Theorem X2_invalid_division (tier division page : string) :
  division ∉ division_codes ->
  tier_to_url tier division page = Err InvalidDivision.
Proof.
  intros Hout. unfold tier_to_url. by rewrite division_dict_lookup_None.
Qed.

Lemma X2_invalid_division_witness :
  tier_to_url "master" "IV" "1" = Err InvalidDivision.
Proof. apply X2_invalid_division. decide_by_compute. Defined.

(** X3: for a top tier, in any letter case, and no division,
    [tier_to_url] returns the leaderboard path of the lower-cased tier;
    the page plays no part in it. *)
Theorem X3_top_tier_path (tier page : string) :
  lower tier ∈ top_tiers ->
  tier_to_url tier "" page
  = Ok ("/lol/league/v4/" +:+ lower tier +:+ "leagues/by-queue/RANKED_SOLO_5x5").
Proof.
  intros Htier. unfold tier_to_url.
  change (division_dict !! "") with (Some "").
  apply list_elem_of_In in Htier. cbn in Htier.
  destruct Htier as [<- | [<- | [<- | []]]]; reflexivity.
Qed.

Lemma X3_top_tier_path_witness :
  tier_to_url "GRANDMASTER" "" "9"
  = Ok "/lol/league/v4/grandmasterleagues/by-queue/RANKED_SOLO_5x5".
Proof. apply (X3_top_tier_path "GRANDMASTER" "9"). decide_by_compute. Defined.

(** X4: [tier_to_url] reads its tier through [lower] only: a tier and its
    lower-cased form give the same result, path or error, for every
    division and page. *)
Theorem X4_tier_case_insensitive (tier division page : string) :
  tier_to_url (lower tier) division page = tier_to_url tier division page.
Proof. unfold tier_to_url. by rewrite lower_idempotent. Qed.

(** X5: [create_tier_url] succeeds exactly when the region is one of the
    fifteen codes and the lower-cased tier one of the nine names; its URL
    is then the region's base endpoint followed by the leaderboard path
    (top tiers) or by the entries path with an empty division and page 1
    (the other tiers).  Every other input ends in [SystemExit]: no
    [ValueError] leaves the function. *)
Theorem X5_create_tier_url_spec (region tier : string) :
  match create_tier_url region tier with
  | Ok url =>
      region ∈ region_codes ∧ lower tier ∈ tier_set
      ∧ ∃ base, region_dict !! region = Some base
          ∧ url = base +:+
                  (if bool_decide (lower tier ∈ top_tiers)
                   then "/lol/league/v4/" +:+ lower tier +:+ "leagues/by-queue/RANKED_SOLO_5x5"
                   else "/lol/league/v4/entries/RANKED_SOLO_5x5/" +:+ lower tier +:+ "/?page=1")
  | Err e => e = SystemExit ∧ (region ∉ region_codes ∨ lower tier ∉ tier_set)
  end.
Proof.
  unfold create_tier_url, region_to_url. rewrite tier_to_url_default.
  destruct (decide (region ∈ region_codes)) as [Hin | Hout].
  - destruct (region_dict_lookup region Hin) as (base & -> & _).
    destruct (bool_decide (lower tier ∈ tier_set)) eqn:Htier.
    + apply bool_decide_eq_true in Htier.
      destruct (bool_decide (lower tier ∈ top_tiers)); eauto 10.
    + apply bool_decide_eq_false in Htier. cbn. eauto.
  - rewrite (region_dict_lookup_None region Hout). eauto.
Qed.

Lemma append_inj_r (p a b : string) : p +:+ a = p +:+ b -> a = b.
Proof. induction p as [| c p IH]; cbn; [done |]. intros [= H]. by apply IH. Qed.

(** X6: in a valid region, [create_puuid_url] succeeds for every string
    summoner id and sends distinct ids to distinct lookup URLs (the id is
    appended as it is to the region's lookup endpoint). *)
Theorem X6_lookup_url_injective W (id1 id2 region : string) :
  region ∈ region_codes ->
  id1 ≠ id2 ->
  ∃ base,
    region_to_url region = Ok base
    ∧ create_puuid_url W (JStr id1) region
      = Ok (base +:+ "/lol/summoner/v4/summoners/" +:+ id1)
    ∧ create_puuid_url W (JStr id2) region
      = Ok (base +:+ "/lol/summoner/v4/summoners/" +:+ id2)
    ∧ base +:+ "/lol/summoner/v4/summoners/" +:+ id1
      ≠ base +:+ "/lol/summoner/v4/summoners/" +:+ id2.
Proof.
  intros Hin Hne. unfold create_puuid_url, region_to_url.
  destruct (region_dict_lookup region Hin) as (base & -> & _).
  exists base. repeat split.
  intros H. apply append_inj_r in H. by apply append_inj_r in H.
Qed.

Lemma X6_lookup_url_injective_witness :
  ∃ base,
    region_to_url "KR" = Ok base
    ∧ create_puuid_url three_players_world (JStr "abc") "KR"
      = Ok (base +:+ "/lol/summoner/v4/summoners/" +:+ "abc")
    ∧ create_puuid_url three_players_world (JStr "abd") "KR"
      = Ok (base +:+ "/lol/summoner/v4/summoners/" +:+ "abd")
    ∧ base +:+ "/lol/summoner/v4/summoners/" +:+ "abc"
      ≠ base +:+ "/lol/summoner/v4/summoners/" +:+ "abd".
Proof.
  apply (X6_lookup_url_injective three_players_world "abc" "abd" "KR").
  - decide_by_compute.
  - discriminate.
Defined.

(** ** What a computation adds to the trace *)

Section Only.

Context (Q : event -> bool).

Lemma only_unchanged {A} (c : M A) : (∀ s, (c s).2 = s) -> only Q c.
Proof. intros Hc s. exists []. rewrite Hc, app_nil_r. by split. Qed.

Lemma only_ret {A} (a : A) : only Q (ret a).
Proof. by apply only_unchanged. Qed.

Lemma only_raise {A} e : only Q (@raise A e).
Proof. by apply only_unchanged. Qed.

Lemma only_lift {A} (r : result A) : only Q (lift r).
Proof. destruct r; [apply only_ret | apply only_raise]. Qed.

Lemma only_bind {A B} (c : M A) (k : A -> M B) :
  only Q c -> (∀ a, only Q (k a)) -> only Q (bind c k).
Proof.
  intros Hc Hk s. destruct (Hc s) as (new1 & Ht1 & Hq1). unfold bind.
  destruct (c s) as [[a | e] s1]; cbn in *; eauto.
  destruct (Hk a s1) as (new2 & Ht2 & Hq2). exists (new1 ++ new2).
  rewrite Ht2, Ht1, app_assoc. split; [done | by apply Forall_app].
Qed.

Lemma only_catch {A} (c : M A) handler :
  only Q c -> (∀ e h, handler e = Some h -> only Q h) -> only Q (catch c handler).
Proof.
  intros Hc Hh s. destruct (Hc s) as (new1 & Ht1 & Hq1). unfold catch.
  destruct (c s) as [[a | e] s1]; cbn in *; eauto.
  destruct (handler e) as [h |] eqn:Hhandler; cbn; eauto.
  destruct (Hh e h Hhandler s1) as (new2 & Ht2 & Hq2). exists (new1 ++ new2).
  rewrite Ht2, Ht1, app_assoc. split; [done | by apply Forall_app].
Qed.

Lemma only_db W op : (∀ err, Q (EvDb op err) = true) -> only Q (db W op).
Proof.
  intros Hq s. exists [EvDb op (sqlite3 W (trace s) op)]. unfold db.
  destruct (sqlite3 W (trace s) op); cbn; (split; [done | by repeat constructor]).
Qed.

Lemma only_sleep W secs : Q (EvSleep secs) = true -> only Q (sleep W secs).
Proof.
  intros Hq. unfold sleep. destruct (_ <? _)%Z; [apply only_raise |].
  destruct (secs <? 0)%Z; [apply only_raise |].
  intros s. exists [EvSleep secs]. cbn. split; [done | by repeat constructor].
Qed.

Lemma only_http_get W url hdrs :
  (∀ out, Q (EvGet url hdrs out) = true) -> only Q (http_get W url hdrs).
Proof.
  intros Hq s. exists [EvGet url hdrs (requests_get W (trace s) url hdrs)].
  cbn. split; [done | by repeat constructor].
Qed.

End Only.

Lemma increment_counter_only Q : only Q increment_counter.
Proof. intros s. exists []. cbn. by rewrite app_nil_r. Qed.

Lemma get_id_summoner_only_net W room summonerId API_KEY region :
  only is_net_event (get_id_summoner W room summonerId API_KEY region).
Proof.
  induction room as [| room IH]; [by apply only_unchanged |].
  cbn [get_id_summoner].
  apply only_bind; [apply only_lift |]. intros url. cbn zeta.
  apply only_bind; [by apply only_http_get |]. intros [r | |]; [| apply only_raise ..].
  destruct (status_code r =? 429)%Z.
  { repeat (apply only_bind; [first [apply only_lift | by apply only_sleep] |]; intros ?).
    apply IH. }
  destruct (negb _); [apply only_raise |].
  apply only_bind; [apply only_lift |]. intros d.
  apply only_bind; [apply increment_counter_only |]. intros _.
  repeat (apply only_bind; [apply only_lift |]; intros ?). apply only_ret.
Qed.

Lemma resolve_accounts_only_net W room API_KEY region accounts formatted_data :
  only is_net_event (resolve_accounts W room API_KEY region accounts formatted_data).
Proof.
  revert formatted_data.
  induction accounts as [| account rest IH]; intros formatted_data; cbn [resolve_accounts].
  - apply only_ret.
  - repeat (apply only_bind; [apply only_lift |]; intros ?).
    apply only_bind; [apply get_id_summoner_only_net |]. intros [puuid account_id].
    apply IH.
Qed.

Lemma insert_into_table_only_db W path table_name data :
  only is_db_event (insert_into_table W path table_name data).
Proof.
  unfold insert_into_table.
  apply only_bind.
  { apply only_catch; [by apply only_db |]. intros [] h [= <-]. apply only_raise. }
  intros _. apply only_bind; [apply only_lift |]. intros first_row. cbn zeta.
  apply only_bind.
  { apply only_catch; [by apply only_db |]. intros [] h [= <-].
    apply only_bind; [by apply only_db |]. intros _. apply only_raise. }
  intros _. apply only_bind; [by apply only_db |]. intros _. by apply only_db.
Qed.

Lemma create_summonerID_table_only_db W : only is_db_event (create_summonerID_table W).
Proof.
  apply only_catch.
  - repeat (apply only_bind; [by apply only_db |]; intros ?). apply only_ret.
  - intros [] h [= <-]; apply only_raise.
Qed.

Lemma net_events_no_db new :
  Forall (fun e => is_net_event e = true) new -> db_ops new = [].
Proof.
  induction 1 as [| e new He _ IH]; [done |]. destruct e; [| | done]; exact IH.
Qed.

Lemma db_events_no_net new :
  Forall (fun e => is_db_event e = true) new -> gets new = [] ∧ sleeps new = [].
Proof.
  induction 1 as [| e new He _ IH]; [done |]. destruct e; [done | done |]. exact IH.
Qed.

(** X7: a per-player lookup never touches the database: whatever its
    outcome and however often it retries, [get_id_summoner] adds only
    requests and sleeps to the trace. *)
Theorem X7_lookup_never_uses_database W room summonerId API_KEY region s :
  let s' := (get_id_summoner W room summonerId API_KEY region s).2 in
  db_ops (trace s') = db_ops (trace s)
  ∧ inserts (trace s') = inserts (trace s).
Proof.
  destruct (get_id_summoner_only_net W room summonerId API_KEY region s)
    as (new & Ht & Hnet).
  cbn zeta. unfold inserts, db_ops. rewrite Ht, omap_app.
  fold (db_ops new). rewrite (net_events_no_db new Hnet). by rewrite app_nil_r.
Qed.

Lemma insert_into_table_local W path table_name data s :
  let s' := (insert_into_table W path table_name data s).2 in
  gets (trace s') = gets (trace s)
  ∧ sleeps (trace s') = sleeps (trace s)
  ∧ REQUESTS_COUNTER s' = REQUESTS_COUNTER s.
Proof.
  destruct (insert_into_table_only_db W path table_name data s) as (new & Ht & Hdb).
  destruct (db_events_no_net new Hdb) as [Hgets Hsleeps].
  destruct (insert_into_table_tracks W "" "" path table_name data s)
    as (new' & Ht' & _ & Hc).
  rewrite Ht in Ht'. apply app_inv_head in Ht'. subst new'.
  cbn zeta. unfold gets, sleeps in *. rewrite Ht, !omap_app, Hgets, Hsleeps, !app_nil_r.
  rewrite Hc. unfold gets. rewrite Hgets. cbn. split; [done | split; [done | lia]].
Qed.

(** X8: the bulk insert stays on the database side: whatever its outcome,
    [insert_into_table] issues no HTTP request, does not sleep and leaves
    [REQUESTS_COUNTER] as it found it. *)
Theorem X8_insert_stays_local W path table_name data s :
  let s' := (insert_into_table W path table_name data s).2 in
  gets (trace s') = gets (trace s)
  ∧ sleeps (trace s') = sleeps (trace s)
  ∧ REQUESTS_COUNTER s' = REQUESTS_COUNTER s.
Proof. apply insert_into_table_local. Qed.

(** ** The per-player lookup, continued *)

Lemma get_id_summoner_returns W room summonerId API_KEY region s puuid account_id s' :
  get_id_summoner W room summonerId API_KEY region s = (Ret (puuid, account_id), s') ->
  ∃ url rounds r d,
    create_puuid_url W summonerId region = Ok url
    ∧ List.length rounds < room
    ∧ Forall (fun rd => rate_limited W rd.1 rd.2) rounds
    ∧ status_code r = 200%Z
    ∧ body r = Some d
    ∧ getitem d "puuid" = Ok puuid
    ∧ getitem d "accountId" = Ok account_id
    ∧ s' = with_trace s
             (retry_events url (token_header API_KEY) rounds
              ++ [EvGet url (token_header API_KEY) (GotResponse r)]) 1.
Proof.
  revert s. induction room as [| room IH]; intros s Hrun; [done |].
  cbn [get_id_summoner] in Hrun. unfold_run.
  destruct (create_puuid_url W summonerId region) as [url | e] eqn:Hurl; cbn in Hrun; [| done].
  fold (token_header API_KEY) in Hrun.
  destruct (requests_get W (trace s) url (token_header API_KEY)) as [r | |] eqn:Hget;
    cbn in Hrun; [| done ..].
  destruct (status_code r =? 429)%Z eqn:H429.
  - destruct (header r "Retry-After") as [v | e] eqn:Hheader; cbn in Hrun; [| done].
    destruct (py_int W v) as [seconds |] eqn:Hint; cbn in Hrun; [| done].
    destruct (Z.ltb_spec (sleep_max W) (Z.abs (seconds + 1))) as [Hlong | Hshort];
      cbn in Hrun; [done |].
    destruct (Z.ltb_spec (seconds + 1) 0) as [Hneg | Hwait]; cbn in Hrun; [done |].
    match type of Hrun with
    | context [get_id_summoner W room summonerId API_KEY region ?s2] =>
        destruct (get_id_summoner W room summonerId API_KEY region s2)
          as [[ids | e] s3] eqn:Hrec; [| done ..]
    end.
    injection Hrun as -> ->.
    destruct (IH _ Hrec) as (url' & rounds & r' & d & Hurl' & Hlen & Hall & H200 & Hbody
                             & Hpuuid & Hacc & ->).
    assert (url' = url) as -> by congruence.
    exists url, ((r, seconds) :: rounds), r', d.
    split; [done |]. split; [cbn; lia |]. split.
    { constructor; [| done]. split; [by apply Z.eqb_eq |].
      exists v. split; [done |]. split; [done |]. cbn. lia. }
    repeat (split; [done |]).
    unfold with_trace, log. cbn. f_equal. by rewrite <- !app_assoc.
  - destruct (status_code r =? 200)%Z eqn:H200; cbn in Hrun; [| done].
    destruct (body r) as [d |] eqn:Hbody; cbn in Hrun; [| done].
    destruct (getitem d "puuid") as [p |] eqn:Hpuuid; cbn in Hrun; [| done].
    destruct (getitem d "accountId") as [a |] eqn:Hacc; cbn in Hrun; [| done].
    injection Hrun as <- <- <-.
    exists url, [], r, d.
    split; [done |]. split; [cbn; lia |]. split; [constructor |].
    split; [by apply Z.eqb_eq |]. by repeat split.
Qed.

(** X9: when [get_id_summoner] returns a pair of identifiers, it has made
    one kind of request only, to the lookup URL of its summoner id with the
    API key header: each but the last was answered by a usable 429 and
    followed by its sleep, the last was answered 200 with a body holding
    exactly the two identifiers returned, and [REQUESTS_COUNTER] has grown
    by one. *)
Theorem X9_lookup_return_explained W room summonerId API_KEY region s puuid account_id s' :
  get_id_summoner W room summonerId API_KEY region s = (Ret (puuid, account_id), s') ->
  ∃ url rounds r d,
    create_puuid_url W summonerId region = Ok url
    ∧ List.length rounds < room
    ∧ Forall (fun rd => rate_limited W rd.1 rd.2) rounds
    ∧ status_code r = 200%Z
    ∧ body r = Some d
    ∧ getitem d "puuid" = Ok puuid
    ∧ getitem d "accountId" = Ok account_id
    ∧ trace s' = trace s ++ retry_events url (token_header API_KEY) rounds
                 ++ [EvGet url (token_header API_KEY) (GotResponse r)]
    ∧ REQUESTS_COUNTER s' = REQUESTS_COUNTER s + 1.
Proof.
  intros Hrun.
  destruct (get_id_summoner_returns _ _ _ _ _ _ _ _ _ Hrun)
    as (url & rounds & r & d & Hurl & Hlen & Hall & H200 & Hbody & Hpuuid & Hacc & ->).
  exists url, rounds, r, d. by repeat split.
Qed.

Lemma X9_lookup_return_explained_witness :
  ∃ url rounds r d,
    create_puuid_url twice_limited_world (JStr "s1") "NA" = Ok url
    ∧ List.length rounds < 3
    ∧ Forall (fun rd => rate_limited twice_limited_world rd.1 rd.2) rounds
    ∧ status_code r = 200%Z
    ∧ body r = Some d
    ∧ getitem d "puuid" = Ok (JStr "p1")
    ∧ getitem d "accountId" = Ok (JStr "a1")
    ∧ trace (get_id_summoner twice_limited_world 3 (JStr "s1") "KEY" "NA" initial_state).2
      = trace initial_state ++ retry_events url (token_header "KEY") rounds
        ++ [EvGet url (token_header "KEY") (GotResponse r)]
    ∧ REQUESTS_COUNTER
        (get_id_summoner twice_limited_world 3 (JStr "s1") "KEY" "NA" initial_state).2
      = REQUESTS_COUNTER initial_state + 1.
Proof.
  apply (X9_lookup_return_explained twice_limited_world 3 (JStr "s1") "KEY" "NA"
           initial_state (JStr "p1") (JStr "a1")).
  vm_compute. reflexivity.
Defined.

(** X11: a lookup answered by a connection failure, or by a status that
    is neither 200 nor 429, ends the process ([SystemExit]) after that one
    request: no sleep, no retry, [REQUESTS_COUNTER] unchanged. *)
Theorem X11_lookup_fatal_answer W room summonerId API_KEY region url out s :
  create_puuid_url W summonerId region = Ok url ->
  requests_get W (trace s) url (token_header API_KEY) = out ->
  out = RaisedConnectionError
  ∨ (∃ r, out = GotResponse r ∧ status_code r ≠ 200%Z ∧ status_code r ≠ 429%Z) ->
  get_id_summoner W (S room) summonerId API_KEY region s
  = (Raise SystemExit, extend s [EvGet url (token_header API_KEY) out]).
Proof.
  intros Hurl Hget Hout. cbn [get_id_summoner]. unfold_run. rewrite Hurl. cbn.
  unfold token_header in Hget. rewrite Hget.
  destruct Hout as [-> | (r & -> & H200 & H429)]; [done |].
  apply Z.eqb_neq in H200, H429. by rewrite H429, H200.
Qed.

Lemma X11_lookup_fatal_answer_witness :
  get_id_summoner (scripted [reply 404 [] None]) 1 (JStr "s1") "KEY" "NA" initial_state
  = (Raise SystemExit,
     extend initial_state [EvGet (na_lookup_url "s1") (token_header "KEY") (reply 404 [] None)]).
Proof.
  apply (X11_lookup_fatal_answer (scripted [reply 404 [] None]) 0 (JStr "s1") "KEY" "NA").
  - vm_compute. reflexivity.
  - vm_compute. reflexivity.
  - right. eexists. split; [reflexivity |]. split; discriminate.
Defined.



(** The four faults, run: no [Retry-After], one that is not a number, one
    of minus five seconds, one beyond the range of the clock. *)
Example retry_after_faults_run :
  let lookup hdrs :=
    (run (get_id_summoner (scripted [reply 429 hdrs None]) 4 (JStr "s1") "KEY" "NA")).1 in
  lookup [] = Raise (KeyError "retry-after")
  ∧ (∃ msg, lookup [("Retry-After", "soon")] = Raise (ValueError msg))
  ∧ lookup [("Retry-After", "-5")] = Raise (ValueError "sleep length must be non-negative")
  ∧ lookup [("Retry-After", "100000000000000000001")] = Raise OverflowError.
Proof.
  cbn zeta. split; [vm_compute; reflexivity |]. split; [eexists; vm_compute; reflexivity |].
  split; vm_compute; reflexivity.
Qed.

(** X13: [REQUESTS_COUNTER] is raised as soon as a 200 has decoded, before
    the identifiers are read: a 200 whose body lacks [puuid] or
    [accountId] makes the lookup raise, and the failed lookup is counted
    all the same. *)
Theorem X13_counted_before_fields_read W room summonerId API_KEY region url r d e s :
  create_puuid_url W summonerId region = Ok url ->
  requests_get W (trace s) url (token_header API_KEY) = GotResponse r ->
  status_code r = 200%Z ->
  body r = Some d ->
  getitem d "puuid" = Err e
  ∨ (∃ puuid, getitem d "puuid" = Ok puuid ∧ getitem d "accountId" = Err e) ->
  get_id_summoner W (S room) summonerId API_KEY region s
  = (Raise e, with_trace s [EvGet url (token_header API_KEY) (GotResponse r)] 1).
Proof.
  intros Hurl Hget Hstatus Hbody Hfield. cbn [get_id_summoner]. unfold_run.
  rewrite Hurl. cbn. unfold token_header in Hget. rewrite Hget, Hstatus. cbn.
  rewrite Hbody. cbn.
  destruct Hfield as [Hpuuid | (puuid & Hpuuid & Hacc)]; rewrite Hpuuid; cbn; [done |].
  by rewrite Hacc.
Qed.

Lemma X13_counted_before_fields_read_witness :
  get_id_summoner (scripted [reply 200 [] (Some (obj [("puuid", JStr "p1")]))]) 1
    (JStr "s1") "KEY" "NA" initial_state
  = (Raise (KeyError "accountId"),
     with_trace initial_state
       [EvGet (na_lookup_url "s1") (token_header "KEY")
          (reply 200 [] (Some (obj [("puuid", JStr "p1")])))] 1).
Proof.
  apply (X13_counted_before_fields_read
           (scripted [reply 200 [] (Some (obj [("puuid", JStr "p1")]))]) 0
           (JStr "s1") "KEY" "NA" (na_lookup_url "s1")
           (answer 200 [] (Some (obj [("puuid", JStr "p1")])))
           (obj [("puuid", JStr "p1")])).
  - vm_compute. reflexivity.
  - vm_compute. reflexivity.
  - reflexivity.
  - reflexivity.
  - right. exists (JStr "p1"). split; vm_compute; reflexivity.
Defined.

(** ** The database functions, continued *)

Lemma str_repeat_length n : String.length (str_repeat "?, " n) = 3 * n.
Proof.
  induction n as [| n IH]; [done |].
  change (String.length (str_repeat "?, " (S n)))
    with (S (S (S (String.length (str_repeat "?, " n))))).
  rewrite IH. lia.
Qed.

Lemma drop_last_two_three_more c1 c2 c3 t :
  2 <= String.length t ->
  drop_last_two (String c1 (String c2 (String c3 t)))
  = String c1 (String c2 (String c3 (drop_last_two t))).
Proof.
  intros Hlen. unfold drop_last_two.
  change (String.length (String c1 (String c2 (String c3 t))))
    with (S (S (S (String.length t)))).
  replace (S (S (S (String.length t))) - 2) with (S (S (S (String.length t - 2)))) by lia.
  reflexivity.
Qed.

Lemma drop_last_two_placeholders n :
  drop_last_two (str_repeat "?, " n) = placeholders n.
Proof.
  unfold placeholders.
  induction n as [| [| n] IH]; [done | done |].
  change (str_repeat "?, " (S (S n)))
    with (String "?" (String "," (String " " (str_repeat "?, " (S n))))).
  rewrite drop_last_two_three_more by (rewrite str_repeat_length; lia).
  rewrite IH. reflexivity.
Qed.

Lemma inserts_app t1 t2 : inserts (t1 ++ t2) = inserts t1 ++ inserts t2.
Proof. unfold inserts, db_ops. by rewrite omap_app, List.filter_app. Qed.

Lemma insert_into_table_attempt W path table_name (first_row : row) rows s :
  sqlite3 W (trace s) (Connect path) = None ->
  inserts (trace (insert_into_table W path table_name (first_row :: rows) s).2)
  = inserts (trace s)
    ++ [ExecuteMany
          ("INSERT INTO " +:+ table_name +:+ " VALUES("
           +:+ placeholders (List.length first_row) +:+ ")")
          (first_row :: rows)].
Proof.
  intros Hconnect. unfold insert_into_table, catch, bind, db. rewrite Hconnect. cbn.
  rewrite drop_last_two_placeholders.
  repeat match goal with
         | |- context [sqlite3 W ?h ?op] => destruct (sqlite3 W h op); cbn
         end;
    unfold inserts, db_ops; rewrite <- ?app_assoc, !omap_app; cbn;
    rewrite List.filter_app; cbn; by rewrite ?app_nil_r.
Qed.

(** X14: once connected, [insert_into_table] attempts exactly one batch
    insert, of the whole row list, with the statement
    [INSERT INTO <table> VALUES(?, ..., ?)] holding one placeholder per
    value of the first row (none for an empty first row), whatever the
    length of the other rows and whatever the engine then answers. *)
Theorem X14_insert_statement W path table_name (first_row : row) rows s :
  sqlite3 W (trace s) (Connect path) = None ->
  inserts (trace (insert_into_table W path table_name (first_row :: rows) s).2)
  = inserts (trace s)
    ++ [ExecuteMany
          ("INSERT INTO " +:+ table_name +:+ " VALUES("
           +:+ placeholders (List.length first_row) +:+ ")")
          (first_row :: rows)].
Proof. apply insert_into_table_attempt. Qed.

Lemma X14_insert_statement_witness :
  inserts (trace (insert_into_table (scripted []) "db/data.db" "matches"
                    ([JStr "m1"; JNum "31"; JNull] :: [[JStr "m2"]]) initial_state).2)
  = inserts (trace initial_state)
    ++ [ExecuteMany
          ("INSERT INTO " +:+ "matches" +:+ " VALUES("
           +:+ placeholders (List.length [JStr "m1"; JNum "31"; JNull]) +:+ ")")
          ([JStr "m1"; JNum "31"; JNull] :: [[JStr "m2"]])].
Proof. apply (X14_insert_statement (scripted [])). reflexivity. Defined.

Lemma insert_into_table_cases W path table_name data s :
  let result := insert_into_table W path table_name data s in
  ∃ new,
    trace result.2 = trace s ++ new
    ∧ ((∃ msg, new = [EvDb (Connect path) (Some msg)] ∧ result.1 = Raise SystemExit)
       ∨ (data = [] ∧ new = [EvDb (Connect path) None] ∧ result.1 = Raise IndexError)
       ∨ (∃ stmt msg e,
            new = [EvDb (Connect path) None; EvDb (ExecuteMany stmt data) (Some msg);
                   EvDb Close e]
            ∧ ∃ x, result.1 = Raise x)
       ∨ (∃ stmt msg,
            new = [EvDb (Connect path) None; EvDb (ExecuteMany stmt data) None;
                   EvDb Commit (Some msg)]
            ∧ result.1 = Raise (Sqlite3Error msg))
       ∨ (∃ stmt msg,
            new = [EvDb (Connect path) None; EvDb (ExecuteMany stmt data) None;
                   EvDb Commit None; EvDb Close (Some msg)]
            ∧ result.1 = Raise (Sqlite3Error msg))
       ∨ (∃ stmt,
            new = [EvDb (Connect path) None; EvDb (ExecuteMany stmt data) None;
                   EvDb Commit None; EvDb Close None]
            ∧ result.1 = Ret tt)).
Proof.
  cbn zeta. unfold insert_into_table, catch, bind, db.
  destruct (sqlite3 W (trace s) (Connect path)) as [msg |] eqn:Hconnect; cbn.
  { eexists. split; [reflexivity |]. left. eauto. }
  destruct data as [| first_row rows]; cbn.
  { eexists. split; [reflexivity |]. right. left. eauto. }
  repeat match goal with
         | |- context [sqlite3 W ?h ?op] => destruct (sqlite3 W h op); cbn
         end;
    (eexists; split; [rewrite <- ?app_assoc; reflexivity |]);
    cbn; eauto 12.
Qed.

(** X15: [insert_into_table] returns normally only when the connection,
    the batch insert, the commit and the close have all succeeded, in that
    order; and a batch insert that the engine refused is never committed:
    the function closes the connection and raises. *)
Theorem X15_commit_follows_insert W path table_name data s new :
  let result := insert_into_table W path table_name data s in
  trace result.2 = trace s ++ new ->
  (result.1 = Ret tt ->
   ∃ stmt, new = [EvDb (Connect path) None; EvDb (ExecuteMany stmt data) None;
                  EvDb Commit None; EvDb Close None])
  ∧ (∀ stmt msg, EvDb (ExecuteMany stmt data) (Some msg) ∈ new ->
       (∃ x, result.1 = Raise x)
       ∧ Forall (fun e => ∀ err, e ≠ EvDb Commit err) new
       ∧ ∃ e, last new = Some (EvDb Close e)).
Proof.
  intros result Hnew.
  destruct (insert_into_table_cases W path table_name data s) as (new' & Hnew' & Hcases).
  fold result in Hnew', Hcases. rewrite Hnew in Hnew'. apply app_inv_head in Hnew'.
  subst new'.
  destruct Hcases as
    [(msg & -> & Hres) | [(-> & -> & Hres) | [(stmt & msg & e & -> & x & Hres)
     | [(stmt & msg & -> & Hres) | [(stmt & msg & -> & Hres) | (stmt & -> & Hres)]]]]];
    rewrite Hres; (split; [first [done | eauto] |]);
    intros stmt' msg' Hin; apply list_elem_of_In in Hin; cbn in Hin;
    repeat (destruct Hin as [Hin | Hin]; [try discriminate Hin |]);
    try destruct Hin.
  split; [eauto |]. split; [| eauto].
  repeat constructor; discriminate.
Qed.

Lemma X15_commit_follows_insert_witness :
  let data := [[JStr "p1"; JStr "s1"; JStr "a1"; JStr "Ann"; JStr "NA"]] in
  let result :=
    insert_into_table refused_insert_world "db/data.db" "summonerID" data initial_state in
  (result.1 = Ret tt ->
   ∃ stmt, trace result.2
           = [EvDb (Connect "db/data.db") None; EvDb (ExecuteMany stmt data) None;
              EvDb Commit None; EvDb Close None])
  ∧ (∀ stmt msg,
       EvDb (ExecuteMany stmt data) (Some msg) ∈ trace result.2 ->
       (∃ x, result.1 = Raise x)
       ∧ Forall (fun e => ∀ err, e ≠ EvDb Commit err) (trace result.2)
       ∧ ∃ e, last (trace result.2) = Some (EvDb Close e)).
Proof.
  apply (X15_commit_follows_insert refused_insert_world "db/data.db" "summonerID"
           [[JStr "p1"; JStr "s1"; JStr "a1"; JStr "Ann"; JStr "NA"]] initial_state).
  reflexivity.
Defined.

Lemma create_summonerID_table_cases W s :
  create_summonerID_table W s
  = (Ret "summonerID",
     extend s [EvDb (Execute create_table_statement) None; EvDb Commit None;
               EvDb Close None])
  ∨ ∃ msg new,
      create_summonerID_table W s = (Raise SystemExit, extend s new)
      ∧ (new = [EvDb (Execute create_table_statement) (Some msg)]
         ∨ new = [EvDb (Execute create_table_statement) None; EvDb Commit (Some msg)]
         ∨ new = [EvDb (Execute create_table_statement) None; EvDb Commit None;
                  EvDb Close (Some msg)]).
Proof.
  unfold create_summonerID_table, catch, bind, db.
  repeat match goal with
         | |- context [sqlite3 W ?h ?op] => destruct (sqlite3 W h op); cbn
         end;
    unfold extend, log; cbn; rewrite <- ?app_assoc; cbn; eauto 10.
Qed.

(** X16: [create_summonerID_table] has two outcomes only.  Either the
    statement, the commit and the close all succeed and it returns the
    table name "summonerID"; or the first of them that fails ends the
    process ([SystemExit]) with the later ones not attempted.  It never
    attempts an insert. *)
Theorem X16_create_table_outcomes W s :
  let result := create_summonerID_table W s in
  (result.1 = Ret "summonerID"
   ∧ trace result.2
     = trace s ++ [EvDb (Execute create_table_statement) None; EvDb Commit None;
                   EvDb Close None])
  ∨ (result.1 = Raise SystemExit
     ∧ ∃ msg,
         trace result.2 = trace s ++ [EvDb (Execute create_table_statement) (Some msg)]
         ∨ trace result.2
           = trace s ++ [EvDb (Execute create_table_statement) None;
                         EvDb Commit (Some msg)]
         ∨ trace result.2
           = trace s ++ [EvDb (Execute create_table_statement) None; EvDb Commit None;
                         EvDb Close (Some msg)]).
Proof.
  cbn zeta.
  destruct (create_summonerID_table_cases W s) as [-> | (msg & new & -> & Hnew)]; cbn.
  - by left.
  - right. split; [done |]. exists msg.
    destruct Hnew as [-> | [-> | ->]]; eauto.
Qed.

(** ** The orchestrator, continued *)

Lemma resolve_accounts_app W room API_KEY region accounts1 accounts2 formatted_data s :
  resolve_accounts W room API_KEY region (accounts1 ++ accounts2) formatted_data s
  = bind (resolve_accounts W room API_KEY region accounts1 formatted_data)
      (fun rows => resolve_accounts W room API_KEY region accounts2 rows) s.
Proof.
  revert formatted_data s.
  induction accounts1 as [| account accounts1 IH]; intros formatted_data s; [done |].
  cbn [app resolve_accounts]. unfold bind.
  destruct (lift (getitem account "summonerId") s) as [[summonerId | e] s1]; [| done ..].
  destruct (lift (getitem account "summonerName") s1) as [[summonerName | e] s2];
    [| done ..].
  destruct (get_id_summoner W room summonerId API_KEY region s2)
    as [[[puuid account_id] | e] s3]; [| done ..].
  rewrite IH. reflexivity.
Qed.

Lemma resolve_accounts_returns W room API_KEY region accounts formatted_data s rows s' :
  resolve_accounts W room API_KEY region accounts formatted_data s = (Ret rows, s') ->
  ∃ new_rows,
    rows = formatted_data ++ new_rows
    ∧ Forall2 (fun account rec =>
                 ∃ puuid summonerId account_id summonerName,
                   getitem account "summonerId" = Ok summonerId
                   ∧ getitem account "summonerName" = Ok summonerName
                   ∧ rec = [puuid; summonerId; account_id; summonerName; JStr region])
        accounts new_rows
    ∧ REQUESTS_COUNTER s' = REQUESTS_COUNTER s + List.length accounts.
Proof.
  revert formatted_data s.
  induction accounts as [| account accounts IH]; intros formatted_data s Hrun.
  - injection Hrun as <- <-. exists []. rewrite app_nil_r. cbn.
    split; [done | split; [constructor | lia]].
  - cbn [resolve_accounts] in Hrun. unfold bind, lift, ret, raise in Hrun.
    destruct (getitem account "summonerId") as [sid | e] eqn:Hsid; [| done].
    destruct (getitem account "summonerName") as [name | e] eqn:Hname; [| done].
    destruct (get_id_summoner W room sid API_KEY region s)
      as [[[puuid account_id] | e] s1] eqn:Hlookup; [| done ..].
    destruct (get_id_summoner_returns _ _ _ _ _ _ _ _ _ Hlookup)
      as (url & rounds & r & d & _ & _ & _ & _ & _ & _ & _ & ->).
    destruct (IH _ _ Hrun) as (new_rows & -> & Hall & Hcount).
    exists ([puuid; sid; account_id; name; JStr region] :: new_rows).
    split; [by rewrite <- app_assoc |]. split.
    + constructor; [| done]. by exists puuid, sid, account_id, name.
    + rewrite Hcount. cbn. lia.
Qed.

(** X18: the database is opened before any player is looked up: when the
    listing has been fetched (a 200 with an [entries] field, whatever it
    holds) and the database cannot be opened, the run ends ([SystemExit])
    with the listing request and the failed connection as its only
    effects: no lookup is made. *)
Theorem X18_no_lookup_without_database W room API_KEY PATH_DB region tier url r d
    accounts_data msg s :
  create_tier_url region tier = Ok url ->
  requests_get W (trace s) url (token_header API_KEY) = GotResponse r ->
  status_code r = 200%Z ->
  body r = Some d ->
  getitem d "entries" = Ok accounts_data ->
  sqlite3 W (trace s ++ [EvGet url (token_header API_KEY) (GotResponse r)])
    (Connect PATH_DB) = Some msg ->
  create_summoner_to_id_table W room API_KEY PATH_DB region tier s
  = (Raise SystemExit,
     extend s [EvGet url (token_header API_KEY) (GotResponse r);
               EvDb (Connect PATH_DB) (Some msg)]).
Proof.
  intros Hurl Hget Hstatus Hbody Hentries Hconnect.
  unfold create_summoner_to_id_table. rewrite Hurl.
  unfold bind at 1. cbn [lift ret]. unfold bind at 1, http_get at 1. cbn [fst snd].
  unfold token_header in Hget, Hconnect. rewrite Hget, Hstatus. cbn [Z.eqb Pos.eqb negb].
  unfold response_json. rewrite Hbody. unfold bind at 1. cbn [lift ret].
  rewrite Hentries. unfold bind at 1. cbn [lift ret].
  unfold bind at 1, catch at 1, create_connection, catch, db. cbn [trace log].
  rewrite Hconnect. cbn. unfold extend, log. cbn. by rewrite <- app_assoc.
Qed.

Lemma X18_no_lookup_without_database_witness :
  create_summoner_to_id_table unreachable_db_world 1 "KEY" "db/data.db" "NA" "Master"
    initial_state
  = (Raise SystemExit,
     extend initial_state
       [EvGet na_master_url (token_header "KEY") (reply 200 [] (Some three_entries));
        EvDb (Connect "db/data.db") (Some "unable to open database file")]).
Proof.
  apply (X18_no_lookup_without_database unreachable_db_world 1 "KEY" "db/data.db" "NA"
           "Master" na_master_url (answer 200 [] (Some three_entries)) three_entries
           (JList [ladder_entry "s1" "Ann"; ladder_entry "s2" "Bob"; ladder_entry "s3" "Cid"])
           "unable to open database file" initial_state).
  - vm_compute. reflexivity.
  - vm_compute. reflexivity.
  - reflexivity.
  - reflexivity.
  - vm_compute. reflexivity.
  - reflexivity.
Defined.

(** X19: the listing fetch is never retried or tolerated: a connection
    failure, or any status other than 200, ends the run ([SystemExit])
    after that single request, before the database is touched. *)
Theorem X19_listing_fetch_fatal W room API_KEY PATH_DB region tier url out s :
  create_tier_url region tier = Ok url ->
  requests_get W (trace s) url (token_header API_KEY) = out ->
  out = RaisedConnectionError
  ∨ (∃ r, out = GotResponse r ∧ status_code r ≠ 200%Z) ->
  create_summoner_to_id_table W room API_KEY PATH_DB region tier s
  = (Raise SystemExit, extend s [EvGet url (token_header API_KEY) out]).
Proof.
  intros Hurl Hget Hout. unfold create_summoner_to_id_table. rewrite Hurl.
  unfold_run. cbn. unfold token_header in Hget. rewrite Hget.
  destruct Hout as [-> | (r & -> & Hstatus)]; [done |].
  apply Z.eqb_neq in Hstatus. by rewrite Hstatus.
Qed.

Lemma X19_listing_fetch_fatal_witness :
  create_summoner_to_id_table (scripted [reply 403 [] None]) 1 "KEY" "db/data.db" "EUW"
    "gold" initial_state
  = (Raise SystemExit,
     extend initial_state
       [EvGet "https://euw1.api.riotgames.com/lol/league/v4/entries/RANKED_SOLO_5x5/gold/?page=1"
          (token_header "KEY") (reply 403 [] None)]).
Proof.
  apply (X19_listing_fetch_fatal (scripted [reply 403 [] None]) 1 "KEY" "db/data.db" "EUW"
           "gold").
  - vm_compute. reflexivity.
  - vm_compute. reflexivity.
  - right. eexists. split; [reflexivity | discriminate].
Defined.

(** X20: an entry without [summonerId] or [summonerName] stops the loop
    before its own lookup: with the entries before it well formed and
    their lookups served, the loop raises the entry's error having made
    one request per earlier entry and none for the entry itself or the
    ones after it. *)
Theorem X20_malformed_entry_stops_loop W room API_KEY region base good bad rest e
    formatted_data s :
  region_to_url region = Ok base ->
  Forall is_ladder_entry good ->
  (∀ hist entry summonerId url,
     entry ∈ good ->
     getitem entry "summonerId" = Ok summonerId ->
     create_puuid_url W summonerId region = Ok url ->
     lookup_ok (requests_get W hist url (token_header API_KEY))) ->
  getitem bad "summonerId" = Err e
  ∨ (∃ summonerId, getitem bad "summonerId" = Ok summonerId
                   ∧ getitem bad "summonerName" = Err e) ->
  ∃ evs rows,
    Forall3 (resolved_by W API_KEY region) good evs rows
    ∧ resolve_accounts W (S room) API_KEY region (good ++ bad :: rest) formatted_data s
      = (Raise e, with_trace s evs (List.length good)).
Proof.
  intros Hregion Hgood Hlookups Hbad.
  destruct (resolve_accounts_all_ok W room API_KEY region base good Hregion Hgood Hlookups
              formatted_data s) as (evs & rows & Hall & Hrun).
  exists evs, rows. split; [done |].
  rewrite resolve_accounts_app. unfold bind at 1. rewrite Hrun.
  cbn [resolve_accounts]. unfold bind, lift, ret, raise.
  destruct Hbad as [-> | (sid & -> & ->)]; done.
Qed.

Lemma X20_malformed_entry_stops_loop_witness :
  ∃ evs rows,
    Forall3 (resolved_by three_players_world "KEY" "NA") [ladder_entry "s1" "Ann"] evs rows
    ∧ resolve_accounts three_players_world 1 "KEY" "NA"
        ([ladder_entry "s1" "Ann"] ++ obj [("summonerId", JStr "s2")]
         :: [ladder_entry "s3" "Cid"]) [] initial_state
      = (Raise (KeyError "summonerName"),
         with_trace initial_state evs (List.length [ladder_entry "s1" "Ann"])).
Proof.
  apply (X20_malformed_entry_stops_loop three_players_world 0 "KEY" "NA"
           "https://na1.api.riotgames.com").
  - vm_compute. reflexivity.
  - repeat constructor. eexists _, _. split; vm_compute; reflexivity.
  - intros hist entry summonerId url Hin Hsid Hurl.
    apply list_elem_of_In in Hin. cbn in Hin. destruct Hin as [<- | []].
    vm_compute in Hsid. injection Hsid as <-.
    vm_compute in Hurl. injection Hurl as <-.
    eexists _, _, _, _. repeat split; vm_compute; reflexivity.
  - right. exists (JStr "s2"). split; vm_compute; reflexivity.
Defined.

Lemma insert_into_table_unreachable W path table_name data msg s :
  sqlite3 W (trace s) (Connect path) = Some msg ->
  insert_into_table W path table_name data s
  = (Raise SystemExit, extend s [EvDb (Connect path) (Some msg)]).
Proof. intros Hconnect. unfold insert_into_table, catch, bind, db. by rewrite Hconnect. Qed.

Lemma insert_into_table_no_rows W path table_name s :
  sqlite3 W (trace s) (Connect path) = None ->
  insert_into_table W path table_name [] s
  = (Raise IndexError, extend s [EvDb (Connect path) None]).
Proof. intros Hconnect. unfold insert_into_table, catch, bind, db. by rewrite Hconnect. Qed.

Lemma net_events_no_insert new :
  Forall (fun e => is_net_event e = true) new -> inserts new = [].
Proof. intros Hnet. unfold inserts. by rewrite (net_events_no_db new Hnet). Qed.

Lemma records_of_accounts region (accounts : list json) (rows : list row) :
  Forall2 (fun account rec =>
             ∃ puuid summonerId account_id summonerName,
               getitem account "summonerId" = Ok summonerId
               ∧ getitem account "summonerName" = Ok summonerName
               ∧ rec = [puuid; summonerId; account_id; summonerName; JStr region])
    accounts rows ->
  Forall (fun rec => ∃ puuid summonerId account_id summonerName,
            rec = [puuid; summonerId; account_id; summonerName; JStr region]) rows.
Proof.
  induction 1 as [| account rec accounts rows (p & sid & a & name & _ & _ & ->) _ IH];
    constructor; eauto.
Qed.

(** Every run of the orchestrator either stops before the bulk insert,
    without a normal return, or ends as the bulk insert of the rows the
    loop has gathered, the connection for it being open. *)
Lemma orchestrator_run_shape W room API_KEY PATH_DB region tier s o s' :
  create_summoner_to_id_table W room API_KEY PATH_DB region tier s = (o, s') ->
  ((∃ e, o = Raise e) ∧ inserts (trace s') = inserts (trace s))
  ∨ ∃ rec rows s4,
      insert_into_table W PATH_DB "summonerID" (rec :: rows) s4 = (o, s')
      ∧ sqlite3 W (trace s4) (Connect PATH_DB) = None
      ∧ (∃ new, trace s4 = trace s ++ new ∧ inserts new = [])
      ∧ REQUESTS_COUNTER s4 = REQUESTS_COUNTER s + List.length (rec :: rows)
      ∧ Forall (fun rec => ∃ puuid summonerId account_id summonerName,
                  rec = [puuid; summonerId; account_id; summonerName; JStr region])
          (rec :: rows).
Proof.
  intros Hrun. unfold create_summoner_to_id_table in Hrun.
  assert (Hquiet : ∀ s0, (∃ new, trace s0 = trace s ++ new ∧ inserts new = []) ->
                         inserts (trace s0) = inserts (trace s)).
  { intros s0 (new & -> & Hnew). by rewrite inserts_app, Hnew, app_nil_r. }
  assert (H0 : ∃ new, trace s = trace s ++ new ∧ inserts new = []).
  { exists []. by rewrite app_nil_r. }
  destruct (create_tier_url region tier) as [url | e];
    [| injection Hrun as <- <-; left; eauto].
  unfold bind at 1 in Hrun. cbn [lift ret] in Hrun.
  unfold bind at 1, http_get at 1 in Hrun. cbn [fst snd] in Hrun.
  set (out := requests_get W (trace s) url _) in Hrun.
  set (s1 := log (EvGet url _ out) s) in Hrun.
  assert (H1 : (∃ new, trace s1 = trace s ++ new ∧ inserts new = [])
               ∧ REQUESTS_COUNTER s1 = REQUESTS_COUNTER s).
  { split; [| done]. by eexists [_]. }
  clearbody s1. destruct H1 as [H1 C1].
  destruct out as [r | |]; [| injection Hrun as <- <-; left; eauto ..].
  destruct (negb _); [injection Hrun as <- <-; left; eauto |].
  unfold response_json in Hrun.
  destruct (body r) as [d |]; [| injection Hrun as <- <-; left; eauto].
  unfold bind at 1 in Hrun. cbn [lift ret] in Hrun.
  destruct (getitem d "entries") as [accounts_data | e];
    [| injection Hrun as <- <-; left; eauto].
  unfold bind at 1 in Hrun. cbn [lift ret] in Hrun.
  unfold bind at 1, catch at 1, create_connection, catch, db in Hrun.
  set (s2 := log (EvDb (Connect PATH_DB) (sqlite3 W (trace s1) (Connect PATH_DB))) s1)
    in Hrun.
  assert (H2 : (∃ new, trace s2 = trace s ++ new ∧ inserts new = [])
               ∧ REQUESTS_COUNTER s2 = REQUESTS_COUNTER s).
  { split; [| done]. destruct H1 as (new & Ht & Hnew).
    eexists (new ++ [_]). unfold s2, log. cbn [trace]. rewrite Ht, <- app_assoc.
    split; [done |]. by rewrite inserts_app, Hnew. }
  clearbody s2. destruct H2 as [H2 C2].
  destruct (sqlite3 W (trace s1) (Connect PATH_DB));
    [injection Hrun as <- <-; left; eauto |].
  cbn [fst snd] in Hrun. unfold bind at 1 in Hrun.
  destruct (create_summonerID_table_cases W s2) as [Hcreate | (msg & new & Hcreate & Hnew)];
    rewrite Hcreate in Hrun.
  2:{ injection Hrun as <- <-. left. split; [eauto |]. apply Hquiet.
      destruct H2 as (new2 & Ht & Hnew2). exists (new2 ++ new). cbn [extend trace].
      rewrite Ht, <- app_assoc. split; [done |]. rewrite inserts_app, Hnew2.
      by destruct Hnew as [-> | [-> | ->]]. }
  set (s3 := extend s2 _) in Hrun.
  assert (H3 : (∃ new, trace s3 = trace s ++ new ∧ inserts new = [])
               ∧ REQUESTS_COUNTER s3 = REQUESTS_COUNTER s).
  { split; [| done]. destruct H2 as (new & Ht & Hnew).
    eexists (new ++ _). unfold s3, extend. cbn [trace]. rewrite Ht, <- app_assoc.
    split; [done |]. by rewrite inserts_app, Hnew. }
  clearbody s3. destruct H3 as [H3 C3].
  unfold bind at 1 in Hrun.
  destruct (py_iter accounts_data) as [accounts | e]; cbn [lift ret raise] in Hrun;
    [| injection Hrun as <- <-; left; eauto].
  unfold bind at 1 in Hrun.
  destruct (resolve_accounts_only_net W room API_KEY region accounts [] s3)
    as (new & Ht & Hnet).
  assert (H4 : ∃ new', trace (resolve_accounts W room API_KEY region accounts [] s3).2
                       = trace s ++ new' ∧ inserts new' = []).
  { destruct H3 as (new3 & Ht3 & Hnew3). exists (new3 ++ new).
    rewrite Ht, Ht3, <- app_assoc. split; [done |].
    by rewrite inserts_app, Hnew3, (net_events_no_insert new Hnet). }
  clear Ht Hnet new.
  destruct (resolve_accounts W room API_KEY region accounts [] s3)
    as [[rows | e] s4] eqn:Hloop; cbn [fst snd] in H4.
  2: injection Hrun as <- <-; left; eauto.
  destruct (resolve_accounts_returns _ _ _ _ _ _ _ _ _ Hloop)
    as (new_rows & Hrows & Hall & Hcount).
  cbn in Hrows. subst rows.
  destruct (sqlite3 W (trace s4) (Connect PATH_DB)) as [msg |] eqn:Hconnect.
  { rewrite (insert_into_table_unreachable W _ _ _ msg s4 Hconnect) in Hrun.
    injection Hrun as <- <-. left. split; [eauto |]. apply Hquiet.
    destruct H4 as (new4 & Ht4 & Hnew4). exists (new4 ++ [EvDb (Connect PATH_DB) (Some msg)]).
    cbn [extend trace]. rewrite Ht4, <- app_assoc. split; [done |].
    by rewrite inserts_app, Hnew4. }
  destruct Hall as [| account rec accounts rows Hrec Hall].
  { rewrite (insert_into_table_no_rows W _ _ s4 Hconnect) in Hrun.
    injection Hrun as <- <-. left. split; [eauto |]. apply Hquiet.
    destruct H4 as (new4 & Ht4 & Hnew4). exists (new4 ++ [EvDb (Connect PATH_DB) None]).
    cbn [extend trace]. rewrite Ht4, <- app_assoc. split; [done |].
    by rewrite inserts_app, Hnew4. }
  right. exists rec, rows, s4.
  split; [exact Hrun |]. split; [done |]. split; [done |]. split.
  { rewrite Hcount, C3. cbn. apply Forall2_length in Hall. by rewrite Hall. }
  apply (records_of_accounts region (account :: accounts)). by constructor.
Qed.

Lemma five_placeholders (rec : row) region :
  (∃ puuid summonerId account_id summonerName,
     rec = [puuid; summonerId; account_id; summonerName; JStr region]) ->
  "INSERT INTO " +:+ "summonerID" +:+ " VALUES(" +:+ placeholders (List.length rec) +:+ ")"
  = insert_statement.
Proof. by intros (p & sid & a & name & ->). Qed.


Lemma insert_into_table_returned W path table_name (first_row : row) rows s s' :
  insert_into_table W path table_name (first_row :: rows) s = (Ret tt, s') ->
  s' = extend s
         [EvDb (Connect path) None;
          EvDb (ExecuteMany
                  ("INSERT INTO " +:+ table_name +:+ " VALUES("
                   +:+ placeholders (List.length first_row) +:+ ")")
                  (first_row :: rows)) None;
          EvDb Commit None; EvDb Close None].
Proof.
  unfold insert_into_table, catch, bind, db. cbn.
  rewrite drop_last_two_placeholders.
  repeat match goal with
         | |- context [sqlite3 W ?h ?op] => destruct (sqlite3 W h op); cbn
         end; try done.
  intros [= <-]. unfold extend, log. cbn. by rewrite <- !app_assoc.
Qed.

(** X26: a run that returns normally has stored something.  When the
    orchestrator returns, the last four things it did are the connection,
    the batch insert of a non-empty list of rows with the five-placeholder
    statement, the commit and the close, each accepted by the engine; no
    other insert was attempted, and [REQUESTS_COUNTER] has grown by the
    number of rows stored. *)
Theorem X26_normal_return_means_stored W room API_KEY PATH_DB region tier s s' :
  create_summoner_to_id_table W room API_KEY PATH_DB region tier s = (Ret tt, s') ->
  ∃ rows before,
    rows ≠ []
    ∧ trace s'
      = trace s ++ before
        ++ [EvDb (Connect PATH_DB) None; EvDb (ExecuteMany insert_statement rows) None;
            EvDb Commit None; EvDb Close None]
    ∧ inserts before = []
    ∧ REQUESTS_COUNTER s' = REQUESTS_COUNTER s + List.length rows
    ∧ Forall (fun rec => ∃ puuid summonerId account_id summonerName,
                rec = [puuid; summonerId; account_id; summonerName; JStr region]) rows.
Proof.
  intros Hrun.
  destruct (orchestrator_run_shape _ _ _ _ _ _ _ _ _ Hrun)
    as [[[e ?] _] | (rec & rows & s4 & Hinsert & Hconnect & (new & Ht & Hnew) & Hcount
                      & Hshape)]; [done |].
  pose proof (insert_into_table_returned _ _ _ _ _ _ _ Hinsert) as ->.
  exists (rec :: rows), new. cbn [extend trace REQUESTS_COUNTER].
  rewrite (five_placeholders rec region) by (by apply Forall_cons in Hshape as [? _]).
  rewrite Ht, <- app_assoc. done.
Qed.

Lemma X26_normal_return_means_stored_witness :
  ∃ rows before,
    rows ≠ []
    ∧ trace (create_summoner_to_id_table three_players_world 1 "KEY" "db/data.db" "NA"
               "Master" initial_state).2
      = trace initial_state ++ before
        ++ [EvDb (Connect "db/data.db") None; EvDb (ExecuteMany insert_statement rows) None;
            EvDb Commit None; EvDb Close None]
    ∧ inserts before = []
    ∧ REQUESTS_COUNTER
        (create_summoner_to_id_table three_players_world 1 "KEY" "db/data.db" "NA"
           "Master" initial_state).2
      = REQUESTS_COUNTER initial_state + List.length rows
    ∧ Forall (fun rec => ∃ puuid summonerId account_id summonerName,
                rec = [puuid; summonerId; account_id; summonerName; JStr "NA"]) rows.
Proof.
  apply (X26_normal_return_means_stored three_players_world 1 "KEY" "db/data.db" "NA"
           "Master" initial_state).
  vm_compute. reflexivity.
Defined.

(** ** Resolving a listing into records *)

(** C1, as stated, fails when the database cannot be opened: the listing
    holds three entries and each of the three lookups would be answered
    200 with both identifiers, whenever it is made, yet the run ends
    ([SystemExit]) after the listing request alone, with no lookup made
    and no record handed to the database: one request, not four. *)
Lemma C1_storage_down_no_record :
  let W := unreachable_db_world in
  let entries :=
    [ladder_entry "s1" "Ann"; ladder_entry "s2" "Bob"; ladder_entry "s3" "Cid"] in
  let result :=
    run (create_summoner_to_id_table W 1 "KEY" "db/data.db" "NA" "Master") in
  requests_get W [] na_master_url (token_header "KEY") = reply 200 [] (Some three_entries)
  ∧ getitem three_entries "entries" = Ok (JList entries)
  ∧ Forall is_ladder_entry entries
  ∧ (∀ hist, lookups_served W "KEY" "NA" hist entries)
  ∧ result.1 = Raise SystemExit
  ∧ gets (trace result.2)
    = [(na_master_url, token_header "KEY", reply 200 [] (Some three_entries))]
  ∧ inserts (trace result.2) = [].
Proof.
  cbn zeta. split; [vm_compute; reflexivity |]. split; [vm_compute; reflexivity |].
  split; [repeat constructor; eexists _, _; split; vm_compute; reflexivity |].
  split; [| repeat split; vm_compute; reflexivity].
  intros hist. cbn [lookups_served].
  repeat (eexists _, _; split; [vm_compute; reflexivity |];
          split; [vm_compute; reflexivity |];
          split; [eexists _, _, _, _; repeat split; vm_compute; reflexivity |]).
  exact I.
Qed.

Lemma db_accepted W op s :
  sqlite3 W (trace s) op = None -> db W op s = (Ret tt, extend s [EvDb op None]).
Proof. intros Hop. unfold db. by rewrite Hop. Qed.

Lemma extend_twice s new1 new2 : extend (extend s new1) new2 = extend s (new1 ++ new2).
Proof. unfold extend. cbn. by rewrite app_assoc. Qed.

Lemma table_creation_run W PATH_DB s :
  table_creation_accepted W PATH_DB (trace s) ->
  catch (create_connection W PATH_DB)
    (fun e => match e with ValueError _ => Some exit | _ => None end) s
  = (Ret tt, extend s [EvDb (Connect PATH_DB) None])
  ∧ create_summonerID_table W (extend s [EvDb (Connect PATH_DB) None])
    = (Ret "summonerID", extend s (table_created PATH_DB)).
Proof.
  intros (Hconnect & Hexecute & Hcommit & Hclose). split.
  - unfold create_connection, catch. by rewrite db_accepted.
  - unfold create_summonerID_table, catch, bind.
    rewrite db_accepted, extend_twice by exact Hexecute.
    rewrite db_accepted, extend_twice by exact Hcommit.
    rewrite db_accepted, extend_twice by exact Hclose.
    reflexivity.
Qed.

(** Every entry of the listing resolved at its first request, each lookup
    being served when it is made. *)
Lemma resolve_accounts_served W room API_KEY region entries :
  Forall is_ladder_entry entries ->
  ∀ formatted_data s,
    lookups_served W API_KEY region (trace s) entries ->
    ∃ evs rows,
      Forall3 (resolved_by W API_KEY region) entries evs rows
      ∧ resolve_accounts W (S room) API_KEY region entries formatted_data s
        = (Ret (formatted_data ++ rows), with_trace s evs (List.length entries)).
Proof.
  induction entries as [| entry entries IH]; intros Hentries formatted_data s Hserved.
  - exists [], []. split; [constructor |]. cbn. unfold ret, with_trace.
    rewrite !app_nil_r, Nat.add_0_r. by destruct s.
  - apply Forall_cons in Hentries as [(sid & name & Hsid & Hname) Hentries].
    destruct Hserved as (sid' & url & Hsid' & Hurl & Hok & Hserved).
    assert (sid' = sid) as -> by congruence.
    destruct Hok as (r & d & puuid & acc & Hget & Hstatus & Hbody & Hpuuid & Hacc).
    rewrite Hget in Hserved.
    destruct (IH Hentries
                (formatted_data ++ [[puuid; sid; acc; name; JStr region]])
                (with_trace s [EvGet url (token_header API_KEY) (GotResponse r)] 1)
                Hserved)
      as (evs & rows & Hall & Hrun).
    eexists (_ :: evs), (_ :: rows). split.
    + constructor; [| exact Hall].
      exists sid, name, url, r, d, puuid, acc. by repeat split.
    + cbn [resolve_accounts]. rewrite Hsid, Hname. unfold bind at 1. cbn [lift ret].
      unfold bind at 1. cbn [lift ret]. unfold bind at 1.
      rewrite (get_id_summoner_200 W room sid API_KEY region url r d puuid acc s
                 Hurl Hget Hstatus Hbody Hpuuid Hacc).
      rewrite Hrun, with_trace_twice. cbn. by rewrite <- app_assoc.
Qed.

(** C1 (amended): a listing answered 200 whose [entries] holds N ladder
    entries, the database opened and the table created (which the
    orchestrator does before the first lookup), every per-player lookup
    succeeding with status 200 when it is made: the orchestrator resolves
    the N entries into N records (puuid, summonerId, accountId,
    summonerName, region), each with the configured region, in the order
    of the listing, and hands them to [insert_into_table]; the run issues
    N + 1 requests, the listing fetch and then one lookup per entry; and
    when N is not zero and the database opens again, the N records are
    what the one batch insert of the run is asked to store. *)
Theorem C1_listing_resolved W room API_KEY PATH_DB region tier url r0 d0 entries s :
  create_tier_url region tier = Ok url ->
  requests_get W (trace s) url (token_header API_KEY) = GotResponse r0 ->
  status_code r0 = 200%Z ->
  body r0 = Some (JObj d0) ->
  d0 !! "entries" = Some (JList entries) ->
  Forall is_ladder_entry entries ->
  let listed := trace s ++ [EvGet url (token_header API_KEY) (GotResponse r0)] in
  table_creation_accepted W PATH_DB listed ->
  lookups_served W API_KEY region (listed ++ table_created PATH_DB) entries ->
  let result := create_summoner_to_id_table W (S room) API_KEY PATH_DB region tier s in
  ∃ evs rows,
    Forall3 (resolved_by W API_KEY region) entries evs rows
    ∧ List.length rows = List.length entries
    ∧ result
      = insert_into_table W PATH_DB "summonerID" rows
          (with_trace s
             (EvGet url (token_header API_KEY) (GotResponse r0)
              :: table_created PATH_DB ++ evs)
             (List.length entries))
    ∧ gets (trace result.2)
      = gets (trace s) ++ (url, token_header API_KEY, GotResponse r0) :: gets evs
    ∧ List.length (gets (trace result.2))
      = List.length (gets (trace s)) + (List.length entries + 1)
    ∧ (entries ≠ [] ->
       sqlite3 W (listed ++ table_created PATH_DB ++ evs) (Connect PATH_DB) = None ->
       inserts (trace result.2)
       = inserts (trace s) ++ [ExecuteMany insert_statement rows]).
Proof.
  intros Hurl Hget Hstatus Hbody Hentries Hshape listed Hdb Hserved result.
  set (s1 := extend s [EvGet url (token_header API_KEY) (GotResponse r0)]).
  destruct (table_creation_run W PATH_DB s1 Hdb) as [Hconnect Hcreate].
  set (s3 := extend s1 (table_created PATH_DB)) in *.
  destruct (resolve_accounts_served W room API_KEY region entries Hshape [] s3 Hserved)
    as (evs & rows & Hall & Hloop).
  exists evs, rows.
  pose proof (resolved_by_gets W API_KEY region entries evs rows Hall)
    as (Hgets & Hins & Hrows).
  assert (Hlen : List.length rows = List.length entries).
  { symmetry. eapply Forall3_length_lr. exact Hall. }
  set (s4 := with_trace s
               (EvGet url (token_header API_KEY) (GotResponse r0)
                :: table_created PATH_DB ++ evs)
               (List.length entries)).
  assert (Hs4 : with_trace s3 evs (List.length entries) = s4).
  { unfold s4, s3, s1, with_trace, extend. cbn. f_equal. by rewrite <- !app_assoc. }
  assert (Hrun : result = insert_into_table W PATH_DB "summonerID" rows s4).
  { unfold result, create_summoner_to_id_table. rewrite Hurl.
    unfold bind at 1. cbn [lift ret]. unfold bind at 1, http_get at 1. cbn [fst snd].
    unfold token_header in Hget. rewrite Hget, Hstatus. cbn [Z.eqb Pos.eqb negb].
    unfold response_json. rewrite Hbody. unfold bind at 1. cbn [lift ret].
    unfold getitem at 1. rewrite Hentries. unfold bind at 1. cbn [lift ret].
    unfold bind at 1. fold (token_header API_KEY).
    change (log (EvGet url (token_header API_KEY) (GotResponse r0)) s) with s1.
    rewrite Hconnect. unfold bind at 1. rewrite Hcreate.
    unfold bind at 1. cbn [py_iter lift ret]. unfold bind at 1.
    rewrite Hloop, Hs4. reflexivity. }
  split; [exact Hall |]. split; [exact Hlen |]. split; [exact Hrun |].
  pose proof (insert_into_table_local W PATH_DB "summonerID" rows s4) as (Hlocal & _ & _).
  rewrite <- Hrun in Hlocal.
  assert (Hg : gets (trace result.2)
               = gets (trace s) ++ (url, token_header API_KEY, GotResponse r0) :: gets evs).
  { rewrite Hlocal. unfold s4, gets. cbn. rewrite !omap_app. by cbn. }
  split; [exact Hg |]. split.
  { rewrite Hg, length_app. cbn. rewrite Hgets. lia. }
  intros Hsome Hopen.
  destruct rows as [| first_row rows]; [by destruct entries |].
  apply Forall_cons in Hrows as [Hfirst _].
  rewrite Hrun, insert_into_table_attempt.
  - rewrite Hfirst. unfold s4. cbn [with_trace trace].
    rewrite inserts_app. change (?x :: ?l ++ evs) with ((x :: l) ++ evs).
    rewrite (inserts_app _ evs), Hins. cbn. by rewrite app_nil_r.
  - unfold s4. cbn [with_trace trace]. unfold listed in Hopen.
    by rewrite <- app_assoc in Hopen.
Qed.

Lemma C1_listing_resolved_witness :
  let W := three_players_script in
  let entries :=
    [ladder_entry "s1" "Ann"; ladder_entry "s2" "Bob"; ladder_entry "s3" "Cid"] in
  let r0 := answer 200 [] (Some three_entries) in
  let listed :=
    trace initial_state ++ [EvGet na_master_url (token_header "KEY") (GotResponse r0)] in
  let result :=
    create_summoner_to_id_table W 1 "KEY" "db/data.db" "NA" "Master" initial_state in
  ∃ evs rows,
    Forall3 (resolved_by W "KEY" "NA") entries evs rows
    ∧ List.length rows = List.length entries
    ∧ result
      = insert_into_table W "db/data.db" "summonerID" rows
          (with_trace initial_state
             (EvGet na_master_url (token_header "KEY") (GotResponse r0)
              :: table_created "db/data.db" ++ evs)
             (List.length entries))
    ∧ gets (trace result.2)
      = gets (trace initial_state)
        ++ (na_master_url, token_header "KEY", GotResponse r0) :: gets evs
    ∧ List.length (gets (trace result.2))
      = List.length (gets (trace initial_state)) + (List.length entries + 1)
    ∧ (entries ≠ [] ->
       sqlite3 W (listed ++ table_created "db/data.db" ++ evs) (Connect "db/data.db") = None ->
       inserts (trace result.2)
       = inserts (trace initial_state) ++ [ExecuteMany insert_statement rows]).
Proof.
  apply (C1_listing_resolved three_players_script 0 "KEY" "db/data.db" "NA" "Master"
           na_master_url (answer 200 [] (Some three_entries))
           (list_to_map
              [("entries", JList [ladder_entry "s1" "Ann"; ladder_entry "s2" "Bob";
                                  ladder_entry "s3" "Cid"])])
           [ladder_entry "s1" "Ann"; ladder_entry "s2" "Bob"; ladder_entry "s3" "Cid"]
           initial_state).
  - vm_compute. reflexivity.
  - vm_compute. reflexivity.
  - reflexivity.
  - reflexivity.
  - vm_compute. reflexivity.
  - repeat constructor; eexists _, _; split; vm_compute; reflexivity.
  - repeat split; reflexivity.
  - cbn [lookups_served].
    repeat (eexists _, _; split; [vm_compute; reflexivity |];
            split; [vm_compute; reflexivity |];
            split; [eexists _, _, _, _; repeat split; vm_compute; reflexivity |]).
    exact I.
Defined.

(** ** The API key and the entry point *)

Lemma string_app_cons c s t : String c s +:+ t = String c (s +:+ t).
Proof. reflexivity. Qed.

Lemma string_app_assoc (a b c : string) : (a +:+ b) +:+ c = a +:+ (b +:+ c).
Proof. induction a as [| x a IH]; [done |]. by rewrite !string_app_cons, IH. Qed.

Lemma string_app_nil_r (a : string) : a +:+ "" = a.
Proof. induction a as [| x a IH]; [done |]. by rewrite string_app_cons, IH. Qed.

Lemma all_chars_app p (a b : string) :
  all_chars p (a +:+ b) = all_chars p a && all_chars p b.
Proof.
  induction a as [| x a IH]; [done |]. rewrite string_app_cons. cbn.
  by rewrite IH, andb_assoc.
Qed.

Lemma all_chars_impl (p q : ascii -> bool) s :
  (∀ c, p c = true -> q c = true) -> all_chars p s = true -> all_chars q s = true.
Proof.
  intros Hpq. induction s as [| c s IH]; [done |]. cbn.
  rewrite !andb_true_iff. intros [Hc Hs]. eauto.
Qed.

Lemma readline_line line rest :
  all_chars not_line_feed line = true ->
  readline (line +:+ String line_feed rest) = line +:+ String line_feed "".
Proof.
  induction line as [| c line IH]; [done |]. cbn [all_chars].
  rewrite andb_true_iff. intros [Hc Hline]. rewrite !string_app_cons. cbn [readline].
  unfold not_line_feed in Hc. apply negb_true_iff in Hc. by rewrite Hc, IH.
Qed.

Lemma readline_whole text :
  all_chars not_line_feed text = true -> readline text = text.
Proof.
  induction text as [| c text IH]; [done |]. cbn [all_chars readline].
  rewrite andb_true_iff. intros [Hc Htext].
  unfold not_line_feed in Hc. apply negb_true_iff in Hc. by rewrite Hc, IH.
Qed.

Lemma readline_shape text :
  ∃ line, all_chars not_line_feed line = true
          ∧ (readline text = line ∨ readline text = line +:+ String line_feed "").
Proof.
  induction text as [| c text (line & Hline & IH)]; [by exists "" ; auto |].
  cbn [readline]. destruct (Ascii.eqb c line_feed) eqn:Hc.
  - exists "". apply Ascii.eqb_eq in Hc as ->. auto.
  - exists (String c line). cbn [all_chars]. unfold not_line_feed at 1. rewrite Hc, Hline.
    split; [done |]. rewrite string_app_cons. destruct IH as [-> | ->]; auto.
Qed.

Lemma lstrip_all_space s : all_chars is_space s = true -> lstrip s = "".
Proof.
  induction s as [| c s IH]; [done |]. cbn. rewrite andb_true_iff. intros [-> Hs]. auto.
Qed.

Lemma lstrip_padding pad s : all_chars is_space pad = true -> lstrip (pad +:+ s) = lstrip s.
Proof.
  induction pad as [| c pad IH]; [done |]. cbn [all_chars]. rewrite andb_true_iff.
  intros [Hc Hpad]. rewrite string_app_cons. cbn [lstrip]. rewrite Hc. auto.
Qed.

Lemma rstrip_all_space s : all_chars is_space s = true -> rstrip s = "".
Proof.
  induction s as [| c s IH]; [done |]. cbn. rewrite andb_true_iff. intros [-> Hs].
  by rewrite IH.
Qed.

Lemma rstrip_padding s pad : all_chars is_space pad = true -> rstrip (s +:+ pad) = rstrip s.
Proof.
  intros Hpad. induction s as [| c s IH]; [by apply rstrip_all_space |].
  rewrite string_app_cons. cbn [rstrip]. by rewrite IH.
Qed.

Lemma rstrip_ends_well s z :
  last_char s = Some z -> is_space z = false -> rstrip s = s.
Proof.
  intros Hlast Hz. induction s as [| c s IH]; [done |].
  destruct s as [| c' s'].
  - cbn in Hlast. injection Hlast as ->. cbn. by rewrite Hz.
  - change (last_char (String c (String c' s'))) with (last_char (String c' s')) in Hlast.
    cbn [rstrip] in *. rewrite (IH Hlast). done.
Qed.

Lemma all_chars_lstrip p s : all_chars p s = true -> all_chars p (lstrip s) = true.
Proof.
  induction s as [| c s IH]; [done |]. cbn [lstrip]. destruct (is_space c); [| done].
  cbn. rewrite andb_true_iff. intros [_ Hs]. auto.
Qed.

Lemma all_chars_rstrip p s : all_chars p s = true -> all_chars p (rstrip s) = true.
Proof.
  induction s as [| c s IH]; [done |]. cbn [all_chars rstrip]. rewrite andb_true_iff.
  intros [Hc Hs]. specialize (IH Hs).
  destruct (rstrip s) as [| c' t].
  - destruct (is_space c); cbn; [done | by rewrite Hc].
  - cbn [all_chars] in *. by rewrite Hc, IH.
Qed.

Lemma rstrip_last s :
  rstrip s = "" ∨ ∃ z, last_char (rstrip s) = Some z ∧ is_space z = false.
Proof.
  induction s as [| c s IH]; [by left |]. cbn [rstrip].
  destruct (rstrip s) as [| c' t] eqn:Hs.
  - destruct (is_space c) eqn:Hc; [by left |]. right. by exists c.
  - right. destruct IH as [IH | (z & Hlast & Hz)]; [done |]. by exists z.
Qed.

Lemma rstrip_first a s :
  is_space a = false -> first_char (rstrip (String a s)) = Some a.
Proof. intros Ha. cbn [rstrip]. destruct (rstrip s); [by rewrite Ha | done]. Qed.

Lemma strip_line_feed line : strip (line +:+ String line_feed "") = strip line.
Proof.
  unfold strip. induction line as [| c line IH]; [done |].
  rewrite string_app_cons. cbn [lstrip]. destruct (is_space c); [done |].
  rewrite <- string_app_cons. by apply rstrip_padding.
Qed.

Lemma strip_shape s :
  all_chars not_line_feed s = true -> strip s = "" ∨ is_bare_key (strip s) = true.
Proof.
  intros Hs. unfold strip.
  pose proof (all_chars_lstrip _ _ Hs) as Hl.
  induction s as [| c s IH]; [by left |].
  cbn [lstrip] in *. destruct (is_space c) eqn:Hc.
  { apply IH; [| done]. cbn in Hs. by apply andb_true_iff in Hs as [_ Hs]. }
  right. unfold is_bare_key. rewrite (rstrip_first c s Hc).
  destruct (rstrip_last (String c s)) as [Hempty | (z & -> & Hz)].
  { pose proof (rstrip_first c s Hc) as Hfirst. by rewrite Hempty in Hfirst. }
  rewrite Hc, Hz. cbn [negb andb]. by apply all_chars_rstrip.
Qed.

(** X22: a key file is read as one would hope: when the first line of the
    file is the key, possibly padded with blanks on either side, and
    whether or not a line feed and further lines follow, [get_api_key]
    returns the key alone. *)
Theorem X22_key_line_round_trip H file_name left key right rest :
  is_bare_key key = true ->
  all_chars is_padding left = true ->
  all_chars is_padding right = true ->
  read_text H file_name = Some (left +:+ key +:+ right)
  ∨ read_text H file_name = Some (left +:+ key +:+ right +:+ String line_feed rest) ->
  get_api_key H file_name = Some key.
Proof.
  intros Hkey Hleft Hright Htext.
  assert (Hspace : ∀ pad, all_chars is_padding pad = true -> all_chars is_space pad = true).
  { intros pad. apply all_chars_impl. intros c Hc. unfold is_padding in Hc.
    by apply andb_true_iff in Hc as [Hc _]. }
  assert (Hfeed : ∀ pad, all_chars is_padding pad = true
                         -> all_chars not_line_feed pad = true).
  { intros pad. apply all_chars_impl. intros c Hc. unfold is_padding in Hc.
    by apply andb_true_iff in Hc as [_ Hc]. }
  unfold is_bare_key in Hkey.
  destruct key as [| a key']; [done |]. cbn [first_char] in Hkey.
  destruct (last_char (String a key')) as [z |] eqn:Hlast; [| done].
  apply andb_true_iff in Hkey as [Hkey Hkeyfeed]. apply andb_true_iff in Hkey as [Ha Hz].
  apply negb_true_iff in Ha, Hz.
  assert (Hline : all_chars not_line_feed (left +:+ String a key' +:+ right) = true).
  { rewrite !all_chars_app, Hkeyfeed, (Hfeed _ Hleft), (Hfeed _ Hright). done. }
  assert (Hstrip : strip (left +:+ String a key' +:+ right) = String a key').
  { unfold strip. rewrite (lstrip_padding _ _ (Hspace _ Hleft)).
    rewrite string_app_cons. cbn [lstrip]. rewrite Ha. rewrite <- string_app_cons.
    rewrite (rstrip_padding _ _ (Hspace _ Hright)). by apply (rstrip_ends_well _ z). }
  unfold get_api_key. destruct Htext as [-> | ->]; cbn [fmap option_fmap option_map].
  - by rewrite (readline_whole _ Hline), Hstrip.
  - rewrite <- !string_app_assoc, (string_app_assoc left), readline_line by done.
    by rewrite strip_line_feed, Hstrip.
Qed.

Lemma X22_key_line_round_trip_witness :
  get_api_key (key_file_host ("  RGAPI-12ab " +:+ String line_feed "# my key")) "API.in"
  = Some "RGAPI-12ab".
Proof.
  apply (X22_key_line_round_trip _ "API.in" "  " "RGAPI-12ab" " " "# my key").
  - reflexivity.
  - reflexivity.
  - reflexivity.
  - right. reflexivity.
Defined.

(** X23: only the first line is looked at: when it holds nothing but
    blanks, [get_api_key] returns the empty string, whatever the following
    lines hold (a key on the second line is not found). *)
Theorem X23_blank_first_line H file_name blank rest :
  all_chars is_padding blank = true ->
  read_text H file_name = Some (blank +:+ String line_feed rest) ->
  get_api_key H file_name = Some "".
Proof.
  intros Hblank Htext. unfold get_api_key. rewrite Htext. cbn [fmap option_fmap option_map].
  assert (Hspace : all_chars is_space blank = true).
  { revert Hblank. apply all_chars_impl. intros c Hc. unfold is_padding in Hc.
    by apply andb_true_iff in Hc as [Hc _]. }
  assert (Hfeed : all_chars not_line_feed blank = true).
  { revert Hblank. apply all_chars_impl. intros c Hc. unfold is_padding in Hc.
    by apply andb_true_iff in Hc as [_ Hc]. }
  rewrite (readline_line _ _ Hfeed), strip_line_feed. unfold strip.
  by rewrite (lstrip_all_space _ Hspace).
Qed.

Lemma X23_blank_first_line_witness :
  get_api_key (key_file_host (" " +:+ String line_feed "RGAPI-12ab")) "API.in" = Some "".
Proof.
  apply (X23_blank_first_line _ "API.in" " " "RGAPI-12ab"); reflexivity.
Defined.

(** X24: whatever the file holds, the key [get_api_key] returns is either
    empty or free of white space at both ends and of line feeds: it can be
    sent as a header value as it is. *)
Theorem X24_key_is_clean H file_name key :
  get_api_key H file_name = Some key ->
  key = "" ∨ is_bare_key key = true.
Proof.
  unfold get_api_key. destruct (read_text H file_name) as [text |]; [| done].
  cbn [fmap option_fmap option_map]. intros [= <-].
  destruct (readline_shape text) as (line & Hline & [-> | ->]).
  - by apply strip_shape.
  - rewrite strip_line_feed. by apply strip_shape.
Qed.

Lemma X24_key_is_clean_witness :
  "RGAPI 12" = "" ∨ is_bare_key "RGAPI 12" = true.
Proof.
  apply (X24_key_is_clean (key_file_host ("  RGAPI 12 " +:+ String line_feed "")) "API.in").
  reflexivity.
Defined.

Lemma resolve_accounts_grows W room API_KEY region accounts formatted_data :
  only (fun _ => true) (resolve_accounts W room API_KEY region accounts formatted_data).
Proof.
  intros s.
  destruct (resolve_accounts_only_net W room API_KEY region accounts formatted_data s)
    as (new & Ht & _).
  exists new. split; [done |]. by apply Forall_forall.
Qed.

Lemma insert_into_table_grows W path table_name data :
  only (fun _ => true) (insert_into_table W path table_name data).
Proof.
  intros s.
  destruct (insert_into_table_only_db W path table_name data s) as (new & Ht & _).
  exists new. split; [done |]. by apply Forall_forall.
Qed.

Lemma create_summonerID_table_grows W :
  only (fun _ => true) (create_summonerID_table W).
Proof.
  intros s. destruct (create_summonerID_table_only_db W s) as (new & Ht & _).
  exists new. split; [done |]. by apply Forall_forall.
Qed.

Lemma create_summoner_to_id_table_first_request W room API_KEY PATH_DB region tier url s :
  create_tier_url region tier = Ok url ->
  ∃ rest,
    trace (create_summoner_to_id_table W room API_KEY PATH_DB region tier s).2
    = trace s ++ EvGet url (token_header API_KEY)
                   (requests_get W (trace s) url (token_header API_KEY)) :: rest.
Proof.
  intros Hurl. unfold create_summoner_to_id_table. rewrite Hurl.
  unfold bind at 1. cbn [lift ret]. unfold bind at 1, http_get at 1. cbn [fst snd].
  fold (token_header API_KEY).
  set (out := requests_get W (trace s) url (token_header API_KEY)).
  set (s1 := log (EvGet url (token_header API_KEY) out) s).
  match goal with
  | |- ∃ rest, trace (?c s1).2 = _ => assert (Hgrow : only (fun _ => true) c)
  end.
  { destruct out as [r | |]; [| apply only_raise ..].
    destruct (negb _); [apply only_raise |].
    apply only_bind; [apply only_lift |]. intros response_dict.
    apply only_bind; [apply only_lift |]. intros accounts_data.
    apply only_bind.
    { apply only_catch.
      - apply only_catch; [by apply only_db |]. intros [] h [= <-]. apply only_raise.
      - intros [] h [= <-]. apply only_raise. }
    intros _. apply only_bind; [apply create_summonerID_table_grows |]. intros table_name.
    apply only_bind; [apply only_lift |]. intros accounts.
    apply only_bind; [apply resolve_accounts_grows |]. intros formatted_data.
    apply insert_into_table_grows. }
  destruct (Hgrow s1) as (new & Ht & _). exists new. rewrite Ht.
  unfold s1, log. cbn. by rewrite <- app_assoc.
Qed.

(** X25: [main] always asks for the master ladder of region "NA": when
    [API.in] can be read, the first thing the process does to the outside
    is a GET of the NA master-league URL carrying, as [X-Riot-Token], the
    stripped first line of the file; neither the text of the key nor the
    location of the database can make the run stop before that request. *)
Theorem X25_main_first_request W H room text :
  read_text H "API.in" = Some text ->
  ∃ result rest,
    main W H room = Some result
    ∧ trace result.2
      = EvGet na_master_url (token_header (strip (readline text)))
          (requests_get W [] na_master_url (token_header (strip (readline text))))
        :: rest.
Proof.
  intros Htext. unfold main, get_api_key. rewrite Htext. cbn.
  destruct (create_summoner_to_id_table_first_request W room (strip (readline text))
              (get_path_db H) "NA" "Master" na_master_url initial_state)
    as (rest & Hrest); [by vm_compute |].
  eexists _, rest. split; [reflexivity |]. exact Hrest.
Qed.

Lemma X25_main_first_request_witness :
  ∃ result rest,
    main three_players_world (key_file_host "KEY") 1 = Some result
    ∧ trace result.2
      = EvGet na_master_url (token_header (strip (readline "KEY")))
          (requests_get three_players_world [] na_master_url
             (token_header (strip (readline "KEY"))))
        :: rest.
Proof.
  apply (X25_main_first_request three_players_world (key_file_host "KEY") 1 "KEY").
  reflexivity.
Defined.

(** The whole program on the three players: key read from [API.in],
    database under the working directory, three records stored. *)
Example main_run :
  ∃ result,
    main three_players_world (key_file_host ("KEY" +:+ newline)) 1 = Some result
    ∧ result.1 = Ret tt
    ∧ db_ops (trace result.2)
      = [Connect "/home/user/League-Analyzer/db/data.db";
         Execute create_table_statement; Commit; Close;
         Connect "/home/user/League-Analyzer/db/data.db";
         ExecuteMany insert_statement
           [[JStr "p1"; JStr "s1"; JStr "a1"; JStr "Ann"; JStr "NA"];
            [JStr "p2"; JStr "s2"; JStr "a2"; JStr "Bob"; JStr "NA"];
            [JStr "p3"; JStr "s3"; JStr "a3"; JStr "Cid"; JStr "NA"]];
         Commit; Close].
Proof. eexists. split; [reflexivity |]. split; vm_compute; reflexivity. Qed.


